(** * The Git view contribution of Theia, embedded in Rocq

    Source: [packages/git/src/browser/git-view-contribution.ts]
    (classes [GitViewContribution] and [ScmProviderImpl]).

    The TypeScript class is stateful and asynchronous.  The embedding threads
    the instance fields, the two static counters and a trace of the calls made
    on collaborators through a state-and-rejection monad; a promise is
    represented by the way it settles.  Collaborators whose code is not part
    of the file ([URI], [DiffUris], [LabelProvider], [ScmService],
    [String.prototype.localeCompare]) are interfaces (type classes). *)

From Stdlib Require Import List String Ascii Bool ZArith NArith Lia.
From Stdlib Require Import Permutation Sorted DecimalString DecimalN.
Import ListNotations.
Local Open Scope string_scope.

(** ** The fragment of JavaScript the file relies on *)

Module Js.

(** What a [throw] or a rejected promise carries: an [Error] instance with
    its [message], or any other value (which may or may not have a
    [message] property of its own). *)
Inductive Value : Type :=
| ErrorObject (message : string)
| NonError (message : option string).

Definition instanceof_Error (e : Value) : bool :=
  match e with ErrorObject _ => true | NonError _ => false end.

Definition message (e : Value) : option string :=
  match e with ErrorObject m => Some m | NonError m => m end.

(** How a promise (or a call that may throw) settles. *)
Inductive Settled (A : Type) : Type :=
| Fulfilled (a : A)
| Rejected (e : Value).
Arguments Fulfilled {A} a.
Arguments Rejected {A} e.

Definition isFulfilled {A} (r : Settled A) : bool :=
  match r with Fulfilled _ => true | Rejected _ => false end.

(** Truthiness of [T | undefined] for an object type [T]. *)
Definition truthy {A} (o : option A) : bool :=
  match o with Some _ => true | None => false end.

(** Truthiness of [string | undefined]: the empty string is falsy too. *)
Definition truthy_string (o : option string) : bool :=
  match o with Some s => negb (s =? "") | None => false end.

Definition find {A} (p : A -> bool) (l : list A) : option A := List.find p l.
Definition some {A} (p : A -> bool) (l : list A) : bool := existsb p l.
Definition every {A} (p : A -> bool) (l : list A) : bool := forallb p l.

(** [arr.indexOf(x)]: position of the first element identical to [x], [-1]
    when there is none. *)
Fixpoint indexOf_from {A} (same : A -> A -> bool) (x : A) (l : list A) (i : Z) : Z :=
  match l with
  | [] => (-1)%Z
  | y :: l' => if same y x then i else indexOf_from same x l' (i + 1)%Z
  end.
Definition indexOf {A} (same : A -> A -> bool) (l : list A) (x : A) : Z :=
  indexOf_from same x l 0%Z.

(** [arr.splice(index, 1)] for [index >= 0]. *)
Fixpoint splice1 {A} (index : nat) (l : list A) : list A :=
  match l, index with
  | [], _ => []
  | _ :: l', O => l'
  | y :: l', S k => y :: splice1 k l'
  end.

(** [s.lastIndexOf(c)] for a one-character search string. *)
Fixpoint lastIndexOf_from (c : ascii) (s : string) (i : Z) (found : Z) : Z :=
  match s with
  | EmptyString => found
  | String a s' =>
      lastIndexOf_from c s' (i + 1)%Z (if Ascii.eqb a c then i else found)
  end.
Definition lastIndexOf (s : string) (c : ascii) : Z :=
  lastIndexOf_from c s 0%Z (-1)%Z.

(** [s.substring(start)]: a negative [start] counts as [0], one past the
    end gives the empty string. *)
Definition substring_from (s : string) (start : Z) : string :=
  let k := Z.to_nat (Z.max 0 start) in
  String.substring k (String.length s - k) s.

(** [n ++] on a number holding a non-negative integer: exact below [2^53];
    at [2^53] the sum is not representable and rounds back to [2^53]. *)
Definition MAX_EXACT : N := 9007199254740992.
Definition Number_succ (n : N) : N :=
  if (n <? MAX_EXACT)%N then (n + 1)%N else n.

(** Conversion of such a number inside a template literal: its decimal
    digits (the exponent form only starts at [10^21]). *)
Definition Number_toString (n : N) : string :=
  NilEmpty.string_of_uint (N.to_uint n).

(** [Array.prototype.sort(cmp)].  ECMAScript (2019 and later) requires
    a stable sort: with a consistent comparator the result is the one
    permutation that is ordered by [cmp] and keeps ties in their original
    order.  Insertion from the right computes it. *)
Section Sort.
Context {A : Type} (cmp : A -> A -> Z).

Fixpoint sort_insert (x : A) (l : list A) : list A :=
  match l with
  | [] => [x]
  | y :: l' => if (cmp x y <=? 0)%Z then x :: l else y :: sort_insert x l'
  end.

Fixpoint sort (l : list A) : list A :=
  match l with
  | [] => []
  | x :: l' => sort_insert x (sort l')
  end.
End Sort.

(** [s.lastIndexOf(pattern)] for any search string: the greatest index at
    which [pattern] starts, [-1] when there is none (the empty pattern is
    found at the end). *)
Fixpoint lastIndexOfString_from (pattern s : string) (i : Z) (found : Z) : Z :=
  match s with
  | EmptyString => if String.prefix pattern s then i else found
  | String _ s' =>
      lastIndexOfString_from pattern s' (i + 1)%Z (if String.prefix pattern s then i else found)
  end.
Definition lastIndexOfString (s pattern : string) : Z :=
  lastIndexOfString_from pattern s 0%Z (-1)%Z.

(** [s.substring(start, end)]: both bounds are clamped to [0 .. s.length]
    and swapped when [start] is the larger one. *)
Definition substring_between (s : string) (start stop : Z) : string :=
  let n := Z.of_nat (String.length s) in
  let a := Z.min (Z.max 0 start) n in
  let b := Z.min (Z.max 0 stop) n in
  String.substring (Z.to_nat (Z.min a b)) (Z.to_nat (Z.max a b - Z.min a b)) s.

(** [s.substr(0, length)]: nothing for a length that is not positive. *)
Definition substr0 (s : string) (length : Z) : string :=
  String.substring 0 (Z.to_nat length) s.

(** [s.endsWith(suffix)] *)
Definition endsWith (s suffix : string) : bool :=
  let n := String.length s in
  let k := String.length suffix in
  if (k <=? n)%nat then String.substring (n - k) k s =? suffix else false.

End Js.

Import Js.

(** ** Collaborators of the file *)

(** [URI] of [@theia/core] and [DiffUris.encode]: only the operations the file
    calls, uninterpreted. *)
Class UriApi : Type := {
  URI : Type;
  URI_new : string -> URI;                  (* new URI(s) *)
  withScheme : URI -> string -> URI;
  withQuery : URI -> string -> URI;
  displayName : URI -> string;
  URI_toString : URI -> string;
  DiffUris_encode : URI -> URI -> string -> URI
}.

(** [String.prototype.localeCompare].  The collation depends on the host's
    locale; what is known of it is that it is a consistent comparator: the
    sign flips when the arguments are swapped, and "not after" is
    transitive. *)
Class LocaleCollation : Type := {
  localeCompare : string -> string -> Z;
  localeCompare_swap : forall a b, Z.sgn (localeCompare b a) = (- Z.sgn (localeCompare a b))%Z;
  localeCompare_trans : forall a b c,
      (localeCompare a b <= 0)%Z -> (localeCompare b c <= 0)%Z -> (localeCompare a c <= 0)%Z
}.

(** Modelled from the spec: the enumeration [GitFileStatus] of
    [packages/git/src/common], whose declaration is not part of the file
    (spec section 3: [enum{New, Modified, Deleted, Renamed, Copied, Conflicted}]). *)
Inductive GitFileStatus : Type :=
| New | Copied | Modified | Renamed | Deleted | Conflicted.

Definition GitFileStatus_eqb (a b : GitFileStatus) : bool :=
  match a, b with
  | New, New | Copied, Copied | Modified, Modified
  | Renamed, Renamed | Deleted, Deleted | Conflicted, Conflicted => true
  | _, _ => false
  end.

(** The reverse mapping [GitFileStatus[v]] of a TypeScript enum: the name of
    the member. *)
Definition GitFileStatus_name (s : GitFileStatus) : string :=
  match s with
  | New => "New" | Copied => "Copied" | Modified => "Modified"
  | Renamed => "Renamed" | Deleted => "Deleted" | Conflicted => "Conflicted"
  end.

(** ** Data model *)

Record GitFileChange : Type := {
  uri : string;
  status : GitFileStatus;
  staged : bool
}.

Record WorkingDirectoryStatus : Type := {
  branch : option string;
  currentHead : option string;
  changes : list GitFileChange
}.

Record Repository : Type := { localUri : string }.

(** Objects of class [ScmProviderImpl] live in a store; a reference is the
    position in the store. *)
Definition ProviderRef : Type := nat.

Record ScmCommand : Type := {
  cmd_id : string;
  cmd_text : string;
  cmd_tooltip : option string;
  cmd_command : option string
}.

Record ScmResourceDecorations : Type := {
  icon : string;
  letter : string;
  color : string
}.

(** An [ScmResource].  Its [open] method is a closure over the change it was
    built from; [open_change] is that captured change. *)
Record ScmResource `{UriApi} : Type := {
  sourceUri : URI;
  decorations : ScmResourceDecorations;
  open_change : GitFileChange
}.

(** An [ScmResourceGroup].  [provider] is a reference; [onDidChange] is the
    provider's own event accessor and holds nothing of the group. *)
Record ScmResourceGroup `{UriApi} : Type := {
  label : string;
  hideWhenEmpty : bool;
  id : string;
  provider : ProviderRef;
  resources : list ScmResource
}.

(** The fields of an [ScmProviderImpl] that hold data.  Its emitters are
    represented by what they fire (see [Notification]). *)
Record ScmProviderImpl `{UriApi} : Type := {
  _id : string;
  _contextValue : string;
  _label : string;
  _rootUri : option string;
  _groups : option (list ScmResourceGroup);   (* undefined until first set *)
  _count : option Z
}.

(** What the four emitters of a provider deliver to their listeners. *)
Inductive Notification : Type :=
| DidChange
| DidChangeResources
| DidChangeCommitTemplate (template : string)
| DidChangeStatusBarCommands (commands : list ScmCommand).

Record ScmRepository : Type := { repo_provider : ProviderRef }.

(** [ScmService] of [@theia/scm]: its list of repositories, registration of a
    provider and disposal of a repository, uninterpreted. *)
Class ScmServiceApi : Type := {
  ScmService : Type;
  ScmService_repositories : ScmService -> list ScmRepository;
  ScmService_registerScmProvider : ProviderRef -> ScmService -> ScmRepository * ScmService;
  ScmRepository_dispose : ScmRepository -> ScmService -> ScmService
}.

(** The remaining collaborators of [GitViewContribution]. *)
Class GitCollaborators `{UriApi} : Type := {
  GIT_RESOURCE_SCHEME : string;                   (* from ./git-resource *)
  getIcon : URI -> Settled string;                (* LabelProvider.getIcon *)
  toAbbreviation : GitFileStatus -> bool -> string (* GitFileStatus.toAbbreviation *)
}.

Record StatusBarEntry : Type := {
  entry_text : string;
  entry_tooltip : option string;
  entry_command : option string
}.

Record GitStatusChangeEvent : Type := {
  source : Repository;
  event_status : WorkingDirectoryStatus
}.

(** Calls made on collaborators, in the order they happen. *)
Inductive Effect `{UriApi} : Type :=
| Fire (p : ProviderRef) (n : Notification)       (* an emitter of provider p fires *)
| RegisterScmProvider (p : ProviderRef)           (* scmService.registerScmProvider *)
| DisposeScmRepository (r : ScmRepository)        (* scmRepo.dispose() *)
| StatusBarRemoveElement (element : string)
| EditorOpen (target : URI)                       (* editorManager.open(uri, {mode: 'activate'}) *)
| WidgetDoCommit (r : Repository) (options : string) (message : string).

Section Embedding.
Context `{UA : UriApi} `{SA : ScmServiceApi}.

(** *** [ScmProviderImpl] *)

(** Each method returns the object after the call and what its emitters
    fired during the call. *)
Definition get_groups (p : ScmProviderImpl) : option (list ScmResourceGroup) :=
  _groups p.

Definition set_groups (groups : list ScmResourceGroup) (p : ScmProviderImpl)
  : ScmProviderImpl * list Notification :=
  ({| _id := _id p; _contextValue := _contextValue p; _label := _label p;
      _rootUri := _rootUri p; _groups := Some groups; _count := _count p |}, []).

Definition get_rootUri (p : ScmProviderImpl) : option string := _rootUri p.

Definition get_statusBarCommands (p : ScmProviderImpl) : option (list ScmCommand) :=
  None.

Definition fireChangeStatusBarCommands (commands : list ScmCommand) (p : ScmProviderImpl)
  : ScmProviderImpl * list Notification :=
  (p, [DidChangeStatusBarCommands commands]).

Definition fireChangeResources (p : ScmProviderImpl) : ScmProviderImpl * list Notification :=
  (p, [DidChangeResources]).

Definition fireChange (p : ScmProviderImpl) : ScmProviderImpl * list Notification :=
  (p, [DidChange]).

(** *** State of [GitViewContribution] and of what it talks to *)

Record GitViewContribution : Type := {
  (* static fields *)
  SCM_GROUP_ID : N;
  ScmProviderImpl_ID : N;
  (* instance fields *)
  dirtyRepositories : list Repository;
  scmProviders : list ProviderRef;
  stagedChanges : list GitFileChange;
  mergeChanges : list GitFileChange;
  (* the provider objects *)
  store : list ScmProviderImpl;
  (* collaborators *)
  allRepositories : list Repository;     (* repositoryProvider.allRepositories *)
  scmService : ScmService;
  trace : list Effect
}.

Definition with_SCM_GROUP_ID (n : N) (st : GitViewContribution) : GitViewContribution :=
  {| SCM_GROUP_ID := n; ScmProviderImpl_ID := ScmProviderImpl_ID st;
     dirtyRepositories := dirtyRepositories st; scmProviders := scmProviders st;
     stagedChanges := stagedChanges st; mergeChanges := mergeChanges st;
     store := store st; allRepositories := allRepositories st;
     scmService := scmService st; trace := trace st |}.

Definition with_ScmProviderImpl_ID (n : N) (st : GitViewContribution) : GitViewContribution :=
  {| SCM_GROUP_ID := SCM_GROUP_ID st; ScmProviderImpl_ID := n;
     dirtyRepositories := dirtyRepositories st; scmProviders := scmProviders st;
     stagedChanges := stagedChanges st; mergeChanges := mergeChanges st;
     store := store st; allRepositories := allRepositories st;
     scmService := scmService st; trace := trace st |}.

Definition with_dirtyRepositories (l : list Repository) (st : GitViewContribution)
  : GitViewContribution :=
  {| SCM_GROUP_ID := SCM_GROUP_ID st; ScmProviderImpl_ID := ScmProviderImpl_ID st;
     dirtyRepositories := l; scmProviders := scmProviders st;
     stagedChanges := stagedChanges st; mergeChanges := mergeChanges st;
     store := store st; allRepositories := allRepositories st;
     scmService := scmService st; trace := trace st |}.

Definition with_scmProviders (l : list ProviderRef) (st : GitViewContribution)
  : GitViewContribution :=
  {| SCM_GROUP_ID := SCM_GROUP_ID st; ScmProviderImpl_ID := ScmProviderImpl_ID st;
     dirtyRepositories := dirtyRepositories st; scmProviders := l;
     stagedChanges := stagedChanges st; mergeChanges := mergeChanges st;
     store := store st; allRepositories := allRepositories st;
     scmService := scmService st; trace := trace st |}.

Definition with_changes (stagedC mergeC : list GitFileChange) (st : GitViewContribution)
  : GitViewContribution :=
  {| SCM_GROUP_ID := SCM_GROUP_ID st; ScmProviderImpl_ID := ScmProviderImpl_ID st;
     dirtyRepositories := dirtyRepositories st; scmProviders := scmProviders st;
     stagedChanges := stagedC; mergeChanges := mergeC;
     store := store st; allRepositories := allRepositories st;
     scmService := scmService st; trace := trace st |}.

Definition with_store (l : list ScmProviderImpl) (st : GitViewContribution)
  : GitViewContribution :=
  {| SCM_GROUP_ID := SCM_GROUP_ID st; ScmProviderImpl_ID := ScmProviderImpl_ID st;
     dirtyRepositories := dirtyRepositories st; scmProviders := scmProviders st;
     stagedChanges := stagedChanges st; mergeChanges := mergeChanges st;
     store := l; allRepositories := allRepositories st;
     scmService := scmService st; trace := trace st |}.

Definition with_scmService (s : ScmService) (st : GitViewContribution)
  : GitViewContribution :=
  {| SCM_GROUP_ID := SCM_GROUP_ID st; ScmProviderImpl_ID := ScmProviderImpl_ID st;
     dirtyRepositories := dirtyRepositories st; scmProviders := scmProviders st;
     stagedChanges := stagedChanges st; mergeChanges := mergeChanges st;
     store := store st; allRepositories := allRepositories st;
     scmService := s; trace := trace st |}.

Definition emit (es : list Effect) (st : GitViewContribution) : GitViewContribution :=
  {| SCM_GROUP_ID := SCM_GROUP_ID st; ScmProviderImpl_ID := ScmProviderImpl_ID st;
     dirtyRepositories := dirtyRepositories st; scmProviders := scmProviders st;
     stagedChanges := stagedChanges st; mergeChanges := mergeChanges st;
     store := store st; allRepositories := allRepositories st;
     scmService := scmService st; trace := (trace st ++ es)%list |}.

(** Dereferencing, and a method call on the provider object behind a
    reference: the object is updated in the store and what it fired is
    appended to the trace. *)
Definition deref (st : GitViewContribution) (r : ProviderRef) : option ScmProviderImpl :=
  nth_error (store st) r.

Fixpoint store_update (r : ProviderRef) (p : ScmProviderImpl) (l : list ScmProviderImpl)
  : list ScmProviderImpl :=
  match l, r with
  | [], _ => []
  | _ :: l', O => p :: l'
  | q :: l', S k => q :: store_update k p l'
  end.

Definition call (r : ProviderRef)
           (method : ScmProviderImpl -> ScmProviderImpl * list Notification)
           (st : GitViewContribution) : GitViewContribution :=
  match deref st r with
  | Some p =>
      let '(p', fired) := method p in
      emit (map (Fire r) fired) (with_store (store_update r p' (store st)) st)
  | None => st
  end.

(** [rootUri === s] for [rootUri : string | undefined]. *)
Definition rootUri_is (st : GitViewContribution) (s : string) (r : ProviderRef) : bool :=
  match deref st r with
  | Some p => match get_rootUri p with Some u => u =? s | None => false end
  | None => false
  end.

(** The state-and-rejection monad of the asynchronous methods. *)
Definition M (A : Type) : Type := GitViewContribution -> Settled A * GitViewContribution.

Definition ret {A} (a : A) : M A := fun st => (Fulfilled a, st).

Definition bind {A B} (m : M A) (k : A -> M B) : M B :=
  fun st =>
    match m st with
    | (Fulfilled a, st') => k a st'
    | (Rejected e, st') => (Rejected e, st')
    end.

Definition modify (f : GitViewContribution -> GitViewContribution) : M unit :=
  fun st => (Fulfilled tt, f st).

End Embedding.

Notation "x <- m ;; k" := (bind m (fun x => k))
  (at level 61, m at next level, right associativity).
Notation "m ;;; k" := (bind m (fun _ => k))
  (at level 61, right associativity).

(** ** The methods of [GitViewContribution] *)

Section Methods.
Context `{UA : UriApi} `{SA : ScmServiceApi} `{GC : !GitCollaborators} `{LC : LocaleCollation}.

Definition getColor (s : GitFileStatus) : string :=
  if GitFileStatus_eqb s New then "var(--theia-success-color0)"
  else if GitFileStatus_eqb s Deleted then "var(--theia-warn-color0)"
  else if GitFileStatus_eqb s Conflicted then "var(--theia-error-color0)"
  else "var(--theia-brand-color0)".

(** *** [getUriToOpen] *)

(** [this.stagedChanges.find(c => c.uri === change.uri)] used as a
    condition. *)
Definition findByUri (l : list GitFileChange) (change : GitFileChange) : option GitFileChange :=
  find (fun c => uri c =? uri change) l.

Definition getUriToOpen (st : GitViewContribution) (change : GitFileChange) : URI :=
  let changeUri := URI_new (uri change) in
  if negb (GitFileStatus_eqb (status change) New) then
    if staged change then
      DiffUris_encode
        (withQuery (withScheme changeUri GIT_RESOURCE_SCHEME) "HEAD")
        (withScheme changeUri GIT_RESOURCE_SCHEME)
        (displayName changeUri ++ " (Index)")
    else if truthy (findByUri (stagedChanges st) change) then
      DiffUris_encode
        (withScheme changeUri GIT_RESOURCE_SCHEME)
        changeUri
        (displayName changeUri ++ " (Working tree)")
    else if truthy (findByUri (mergeChanges st) change) then
      changeUri
    else
      DiffUris_encode
        (withQuery (withScheme changeUri GIT_RESOURCE_SCHEME) "HEAD")
        changeUri
        (displayName changeUri ++ " (Working tree)")
  else if staged change then
    withScheme changeUri GIT_RESOURCE_SCHEME
  else if truthy (findByUri (stagedChanges st) change) then
    DiffUris_encode
      (withScheme changeUri GIT_RESOURCE_SCHEME)
      changeUri
      (displayName changeUri ++ " (Working tree)")
  else
    changeUri.

(** The decision table of the specification (section 4.4), written from
    its seven numbered cases in their priority order; [working] is the
    working-tree URI of the change. *)
Definition workingUri (u : string) : URI := URI_new u.
Definition repoUri (u : string) : URI := withScheme (URI_new u) GIT_RESOURCE_SCHEME.
Definition headUri (u : string) : URI := withQuery (repoUri u) "HEAD".
Definition diffOf (u : string) (left right : URI) (name : string) : URI :=
  DiffUris_encode left right (displayName (URI_new u) ++ " (" ++ name ++ ")").

Definition spec_uriTable (isNew isStaged inStagedSet inMergeSet : bool) (u : string) : URI :=
  if isNew && negb isStaged && negb inStagedSet then workingUri u                      (* 1 *)
  else if isNew && isStaged then repoUri u                                             (* 2 *)
  else if isNew && negb isStaged && inStagedSet then
    diffOf u (repoUri u) (workingUri u) "Working tree"                                 (* 3 *)
  else if negb isNew && isStaged then diffOf u (headUri u) (repoUri u) "Index"         (* 4 *)
  else if negb isNew && negb isStaged && inStagedSet then
    diffOf u (repoUri u) (workingUri u) "Working tree"                                 (* 5 *)
  else if negb isNew && negb isStaged && inMergeSet then workingUri u                  (* 6 *)
  else diffOf u (headUri u) (workingUri u) "Working tree".                             (* 7 *)

(** Membership of a path in a cached set. *)
Definition inSet (l : list GitFileChange) (u : string) : bool :=
  existsb (fun c => uri c =? u) l.

(** *** The classifier of [getGroups] *)

Definition Buckets : Type :=
  (list GitFileChange * list GitFileChange * list GitFileChange)%type.

(** One iteration of the [for] loop over [status.changes]; the three
    components are [stagedChanges], [unstagedChanges] and [mergeChanges],
    and [l ++ [change]] is [l.push(change)]. *)
Definition classifyChange (b : Buckets) (change : GitFileChange) : Buckets :=
  let '(stagedC, unstagedC, mergeC) := b in
  if negb (GitFileStatus_name Conflicted =? GitFileStatus_name (status change)) then
    if staged change then ((stagedC ++ [change])%list, unstagedC, mergeC)
    else (stagedC, (unstagedC ++ [change])%list, mergeC)
  else
    if negb (staged change) then (stagedC, unstagedC, (mergeC ++ [change])%list)
    else b.

Definition classify (status : option WorkingDirectoryStatus) : Buckets :=
  match status with
  | Some s => fold_left classifyChange (changes s) ([], [], [])
  | None => ([], [], [])
  end.

(** *** [getGroup] *)

(** [Promise.all]: fulfilled with all the values when every promise is,
    rejected otherwise.  (Which rejection it reports when several promises
    reject depends on timing; the first in list order is taken here.) *)
Fixpoint Promise_all {A} (l : list (Settled A)) : Settled (list A) :=
  match l with
  | [] => Fulfilled []
  | Rejected e :: _ => Rejected e
  | Fulfilled a :: l' =>
      match Promise_all l' with
      | Fulfilled r => Fulfilled (a :: r)
      | Rejected e => Rejected e
      end
  end.

(** The body of the [async change => ...] callback. *)
Definition makeResource (change : GitFileChange) : Settled ScmResource :=
  match getIcon (URI_new (uri change)) with
  | Fulfilled i =>
      Fulfilled {| sourceUri := URI_new (uri change);
                   decorations := {| icon := i;
                                     letter := toAbbreviation (status change) (staged change);
                                     color := getColor (status change) |};
                   open_change := change |}
  | Rejected e => Rejected e
  end.

(** [s.substring(s.lastIndexOf('/'))] of the stringified source URI. *)
Definition lastSegment (r : ScmResource) : string :=
  let s := URI_toString (sourceUri r) in
  substring_from s (lastIndexOf s "/"%char).

(** The comparator [sort] of [getGroup]. *)
Definition sortResources (l r : ScmResource) : Z :=
  localeCompare (lastSegment l) (lastSegment r).

Definition getGroup (label : string) (provider : ProviderRef) (changes : list GitFileChange)
  : M ScmResourceGroup :=
  fun st =>
    match Promise_all (map makeResource changes) with
    | Rejected e => (Rejected e, st)
    | Fulfilled scmResources =>
        let n := SCM_GROUP_ID st in
        (Fulfilled {| label := label;
                      hideWhenEmpty := false;
                      id := label ++ "_" ++ Number_toString n;
                      provider := provider;
                      resources := Js.sort sortResources scmResources |},
         with_SCM_GROUP_ID (Number_succ n) st)
    end.

(** *** [getGroups] *)

(** [if (bucket.length > 0) { groups.push(await this.getGroup(...)); }] *)
Definition pushGroup (groups : list ScmResourceGroup) (label : string)
           (provider : ProviderRef) (bucket : list GitFileChange)
  : M (list ScmResourceGroup) :=
  if (0 <? List.length bucket)%nat then
    g <- getGroup label provider bucket ;;
    ret (groups ++ [g])%list
  else ret groups.

Definition getGroups (status : option WorkingDirectoryStatus) (provider : ProviderRef)
  : M (list ScmResourceGroup) :=
  let '(stagedC, unstagedC, mergeC) := classify status in
  groups <- pushGroup [] "Staged changes" provider stagedC ;;
  groups <- pushGroup groups "Changes" provider unstagedC ;;
  groups <- pushGroup groups "Merged Changes" provider mergeC ;;
  modify (with_changes stagedC mergeC) ;;;
  ret groups.

(** The [open] method of a resource, run in state [st]. *)
Definition ScmResource_open (r : ScmResource) (st : GitViewContribution) : GitViewContribution :=
  emit [EditorOpen (getUriToOpen st (open_change r))] st.

(** *** The status-bar text of [onStart] *)

Definition hasConflicts (changes : list GitFileChange) : bool :=
  some (fun c => GitFileStatus_eqb (status c) Conflicted) changes.

Definition allStaged (changes : list GitFileChange) : bool :=
  negb (some (fun c => negb (staged c)) changes).

(** The value of [dirty] after the [if (status.changes.length > 0)] block. *)
Definition dirtyMarker (changes : list GitFileChange) : string :=
  if (0 <? List.length changes)%nat then
    let conflicts := hasConflicts changes in
    let staged := allStaged changes in
    if conflicts || staged then
      if conflicts then "!"
      else if staged then "+"
      else ""
    else "*"
  else "".

(** [status.branch ? status.branch
      : status.currentHead ? status.currentHead.substring(0, 8) : 'NO-HEAD'] *)
Definition branchName (status : WorkingDirectoryStatus) : string :=
  let fromHead :=
    match currentHead status with
    | Some h => if truthy_string (Some h) then String.substring 0 8 h else "NO-HEAD"
    | None => "NO-HEAD"
    end in
  match branch status with
  | Some b => if truthy_string (Some b) then b else fromHead
  | None => fromHead
  end.

Definition GIT_COMMANDS_CHECKOUT_id : string := "git.checkout".

Definition checkoutCommand (status : WorkingDirectoryStatus) : ScmCommand :=
  {| cmd_id := GIT_COMMANDS_CHECKOUT_id;
     cmd_text := "$(code-fork) " ++ branchName status ++ dirtyMarker (changes status);
     cmd_tooltip := None;
     cmd_command := Some GIT_COMMANDS_CHECKOUT_id |}.

(** *** Registration of providers and the repository tracker *)

(** [new ScmProviderImpl(contextValue, label, rootUri)]: the object gets the
    next value of the static [ID] and a fresh place in the store. *)
Definition ScmProviderImpl_new (contextValue label : string) (rootUri : option string)
           (st : GitViewContribution) : ProviderRef * GitViewContribution :=
  let n := ScmProviderImpl_ID st in
  let p := {| _id := "scm" ++ Number_toString n;
              _contextValue := contextValue;
              _label := label;
              _rootUri := rootUri;
              _groups := None;
              _count := None |} in
  (List.length (store st),
   with_store (store st ++ [p])%list (with_ScmProviderImpl_ID (Number_succ n) st)).

(** The setup of [repo.input] (placeholder and validation callback) has no
    part in the state modelled here. *)
Definition registerScmProvider (repository : Repository) (st : GitViewContribution)
  : ScmRepository * GitViewContribution :=
  let uri := localUri repository in
  let '(provider, st1) :=
    ScmProviderImpl_new "Git" (substring_from uri (lastIndexOf uri "/"%char + 1)) (Some uri) st in
  let st2 := with_scmProviders (scmProviders st1 ++ [provider])%list st1 in
  let '(repo, service) := ScmService_registerScmProvider provider (scmService st2) in
  (repo, emit [RegisterScmProvider provider] (with_scmService service st2)).

Definition checkNewOrRemovedRepositories (st : GitViewContribution) : GitViewContribution :=
  let added :=
    find (fun repo =>
            every (fun dirtyRepo => negb (localUri dirtyRepo =? localUri repo))
                  (dirtyRepositories st))
         (allRepositories st) in
  let st1 :=
    match added with
    | Some a => snd (registerScmProvider a st)
    | None => st
    end in
  let removed :=
    find (fun dirtyRepo =>
            every (fun repo => negb (localUri repo =? localUri dirtyRepo))
                  (allRepositories st1))
         (dirtyRepositories st1) in
  let st2 :=
    match removed with
    | Some r =>
        match find (fun scmRepo => rootUri_is st1 (localUri r) (repo_provider scmRepo))
                   (ScmService_repositories (scmService st1)) with
        | Some removedScmRepo =>
            let st' :=
              emit [DisposeScmRepository removedScmRepo]
                   (with_scmService (ScmRepository_dispose removedScmRepo (scmService st1)) st1) in
            let index := indexOf Nat.eqb (scmProviders st') (repo_provider removedScmRepo) in
            if (index >? -1)%Z
            then with_scmProviders (splice1 (Z.to_nat index) (scmProviders st')) st'
            else st'
        | None => st1
        end
    | None => st1
    end in
  with_dirtyRepositories (allRepositories st2) st2.

(** *** The handler of git events installed by [onStart] *)

Definition GIT_SYNC_STATUS : string := "git-sync-status".

(** [entry] is what [this.getStatusBarEntry()] returns: it depends on the
    repository tracker and the sync service only. *)
Definition updateSyncStatusBarEntry (entry : option StatusBarEntry)
           (repositoryUri : option string) (st : GitViewContribution) : GitViewContribution :=
  match entry, repositoryUri with
  | Some e, Some u =>
      if truthy_string (Some u) then
        match find (rootUri_is st u) (scmProviders st) with
        | Some scmProvider =>
            call scmProvider
                 (fireChangeStatusBarCommands
                    [{| cmd_id := "vcs-sync-status"; cmd_text := entry_text e;
                        cmd_tooltip := entry_tooltip e; cmd_command := entry_command e |}])
                 st
        | None => st
        end
      else emit [StatusBarRemoveElement GIT_SYNC_STATUS] st
  | _, _ => emit [StatusBarRemoveElement GIT_SYNC_STATUS] st
  end.

(** The callback given to [getGroups(...).then]. *)
Definition publishGroups (provider : ProviderRef) (status : WorkingDirectoryStatus)
           (groups : list ScmResourceGroup) (st : GitViewContribution) : GitViewContribution :=
  let st1 := call provider (set_groups groups) st in
  let st2 := call provider (fireChangeStatusBarCommands [checkoutCommand status]) st1 in
  call provider fireChangeResources st2.

(** The handler itself.  The provider is looked up and [getGroups] is
    started before [updateSyncStatusBarEntry] runs; the asynchronous rest of
    [getGroups] and the [then] callback run after the handler has returned.
    A rejection of [getGroups] has no handler: the callback is skipped. *)
Definition onGitEvent (event : GitStatusChangeEvent) (entry : option StatusBarEntry)
           (st : GitViewContribution) : GitViewContribution :=
  let st1 := checkNewOrRemovedRepositories st in
  let status := event_status event in
  let scmProvider := find (rootUri_is st1 (localUri (source event))) (scmProviders st1) in
  let st2 := updateSyncStatusBarEntry entry (Some (localUri (source event))) st1 in
  match scmProvider with
  | Some provider =>
      match getGroups (Some status) provider st2 with
      | (Fulfilled groups, st3) => publishGroups provider status groups st3
      | (Rejected _, st3) => st3
      end
  | None => st2
  end.

(** *** The handler of the amend-commit command *)

Definition isUserAbort (e : Value) : bool :=
  instanceof_Error e &&
  match message e with Some m => m =? "User abort." | None => false end.

(** [widget] is [this.tryGetWidget()], [selectedRepository] the tracker's
    selection, [commitMessageForAmend] the way the promise of the quick-open
    service settles and [doCommit] what the call of [widget.doCommit]
    throws, if anything. *)
Definition COMMIT_AMEND_execute
           (widget : option (Repository -> string -> string -> option Value))
           (selectedRepository : option Repository)
           (commitMessageForAmend : Settled string) : M unit :=
  fun st =>
    match widget, selectedRepository with
    | Some doCommit, Some repository =>
        let catch (e : Value) (st' : GitViewContribution) :=
          if negb (instanceof_Error e)
             || negb (match message e with Some m => m =? "User abort." | None => false end)
          then (Rejected e, st')
          else (Fulfilled tt, st') in
        match commitMessageForAmend with
        | Fulfilled m =>
            let st' := emit [WidgetDoCommit repository "amend" m] st in
            match doCommit repository "amend" m with
            | Some e => catch e st'
            | None => (Fulfilled tt, st')
            end
        | Rejected e => catch e st
        end
    | _, _ => (Fulfilled tt, st)
    end.

End Methods.


(** ** Commits and the sign-off trailer *)

(** The Git backend and the error handler: [git.commit] and [git.exec] by the
    way their promises settle ([git.exec] by the [stdout] of its result),
    [gitErrorHandler.handleError] by what it throws, if anything, and
    [String.prototype.trim]. *)
Class GitBackend : Type := {
  git_commit : Repository -> string -> bool -> bool -> Settled unit;
  git_exec : Repository -> list string -> Settled string;
  handleError : Value -> option Value;
  trim : string -> string
}.

(** The [options] of [doCommit]: ['amend' | 'sign-off'], or undefined. *)
Inductive CommitOption : Type := OptionAmend | OptionSignOff.

(** Calls on the backend and the handler, in the order they happen. *)
Inductive GitCall : Type :=
| GitCommit (r : Repository) (message : string) (signOff amend : bool)
| HandleError (e : Value).


Section Commit.
Context `{GB : GitBackend}.

Definition doCommit (repository : Repository) (message : string) (options : option CommitOption)
  : Settled unit * list GitCall :=
  let signOff := match options with Some OptionSignOff => true | _ => false end in
  let amend := match options with Some OptionAmend => true | _ => false end in
  match git_commit repository message signOff amend with
  | Fulfilled _ => (Fulfilled tt, [GitCommit repository message signOff amend])
  | Rejected error =>
      match handleError error with
      | None =>
          (Fulfilled tt, [GitCommit repository message signOff amend; HandleError error])
      | Some thrown =>
          (Rejected thrown, [GitCommit repository message signOff amend; HandleError error])
      end
  end.


(** [getUserConfig]: both lookups are started, and the two [stdout]s are
    trimmed; [Promise.all] of two promises gives an array of two. *)
Definition getUserConfig (repository : Repository) : Settled (string * string) :=
  match Promise_all [git_exec repository ["config"; "user.name"];
                     git_exec repository ["config"; "user.email"]] with
  | Fulfilled results =>
      let trimmed := map trim results in
      Fulfilled (nth 0 trimmed "", nth 1 trimmed "")
  | Rejected e => Rejected e
  end.

Definition LF : string := String "010"%char EmptyString.

(** The trailer [`\n\nSigned-off-by: ${username} <${email}>`]. *)
Definition signOffTrailer (username email : string) : string :=
  LF ++ LF ++ "Signed-off-by: " ++ username ++ " <" ++ email ++ ">".

(** [doSignOff].  [commitTextArea] is the value of the commit text area,
    undefined when the document has no such element; the result is its value
    after the call.  (Resizing and focusing the area do not touch its
    value.) *)
Definition doSignOff (selectedRepository : option Repository) (commitTextArea : option string)
  : Settled (option string) :=
  match selectedRepository with
  | Some repository =>
      match getUserConfig repository with
      | Fulfilled (username, email) =>
          let signOff := signOffTrailer username email in
          match commitTextArea with
          | Some content =>
              if endsWith content signOff
              then Fulfilled
                     (Some (substr0 content (Z.of_nat (String.length content)
                                             - Z.of_nat (String.length signOff))))
              else Fulfilled (Some (content ++ signOff))
          | None => Fulfilled None
          end
      | Rejected e => Rejected e
      end
  | None => Fulfilled commitTextArea
  end.

End Commit.

(** ** The list of groups in the SCM widget

    Source: [packages/scm/src/browser/scm-widget.tsx], the components
    [ScmResourceGroupsContainer] and [ScmResourceGroupContainer] that show
    the groups of a provider. *)

(** What [ScmResourceItem] is given to show for a resource. *)
Record ScmResourceItemProps : Type := {
  item_name : string;
  item_path : string;
  item_icon : string;
  item_color : string;
  item_letter : string;
  item_groupId : string
}.

(** The container of a group: its header label, the change count next to it
    (absent when it is zero) and the items; an item is absent when the
    provider has no root URI. *)
Record ScmResourceGroupContainer : Type := {
  container_key : string;
  container_label : string;
  container_changeCount : option nat;
  container_items : list (option ScmResourceItemProps)
}.

Section Widget.
Context `{UA : UriApi} `{SA : ScmServiceApi}.

(** [resource.sourceUri.path.toString()]: the path of a URI, as a string. *)
Variable URI_path : URI -> string.

(** [decorations.x ? decorations.x : ''] *)
Definition orEmpty (s : string) : string :=
  if truthy_string (Some s) then s else "".

Definition renderScmResourceItem (groupId : string) (resource : ScmResource)
           (repoUri : option string) : option ScmResourceItemProps :=
  match repoUri with
  | Some repo =>
      if negb (truthy_string (Some repo)) then None
      else
        let decorations := decorations resource in
        let uri := URI_path (sourceUri resource) in
        let project := substring_from repo (lastIndexOf repo "/"%char + 1) in
        let name := substring_from uri (lastIndexOf uri "/"%char + 1) ++ " " in
        let path :=
          substring_between uri
            (lastIndexOfString uri project + Z.of_nat (String.length project) + 1)
            (lastIndexOf uri "/"%char) in
        Some {| item_name := name;
                item_path := if (1 <? String.length path)%nat then path else "";
                item_icon := orEmpty (icon decorations);
                item_color := orEmpty (color decorations);
                item_letter := orEmpty (letter decorations);
                item_groupId := groupId |}
  | None => None
  end.

(** [renderChangeCount]: the count is shown when it is not zero. *)
Definition renderChangeCount (changes : nat) : option nat :=
  match changes with O => None | _ => Some changes end.

(** [ScmResourceGroupContainer.render]; [st] gives the provider behind the
    group's reference. *)
Definition renderGroupContainer (st : GitViewContribution) (group : ScmResourceGroup)
  : ScmResourceGroupContainer :=
  let repoUri :=
    match deref st (provider group) with
    | Some p => get_rootUri p
    | None => None
    end in
  {| container_key := id group;
     container_label := label group;
     container_changeCount := renderChangeCount (List.length (resources group));
     container_items :=
       map (fun resource => renderScmResourceItem (id group) resource repoUri)
           (resources group) |}.

(** [renderGroup]: a group without resources gets no container. *)
Definition renderGroup (st : GitViewContribution) (group : ScmResourceGroup)
  : option ScmResourceGroupContainer :=
  if (0 <? List.length (resources group))%nat
  then Some (renderGroupContainer st group)
  else None.

(** [ScmResourceGroupsContainer.render] for the provider behind [r]. *)
Definition renderGroups (st : GitViewContribution) (r : ProviderRef)
  : list (option ScmResourceGroupContainer) :=
  match deref st r with
  | Some p =>
      match get_groups p with
      | Some groups => map (renderGroup st) groups
      | None => []
      end
  | None => []
  end.

End Widget.

(** ** Start-up and sequences of events *)

Section Start.
Context `{UA : UriApi} `{SA : ScmServiceApi} `{GC : !GitCollaborators} `{LC : LocaleCollation}.

(** The first two statements of [onStart]: a provider is registered for
    every repository, in order, and the list is recorded as observed.  (The
    rest of [onStart] installs the handlers, [onGitEvent] among them.) *)
Definition onStart (st : GitViewContribution) : GitViewContribution :=
  let st1 :=
    fold_left (fun s repository => snd (registerScmProvider repository s))
              (allRepositories st) st in
  with_dirtyRepositories (allRepositories st1) st1.

(** Git events handled one after the other, each with what
    [getStatusBarEntry] returns at that time. *)
Definition onGitEvents (events : list (GitStatusChangeEvent * option StatusBarEntry))
           (st : GitViewContribution) : GitViewContribution :=
  fold_left (fun s e => onGitEvent (fst e) (snd e) s) events st.

End Start.

(** ** Vocabulary of the properties *)

Section Vocabulary.
Context `{UA : UriApi} `{SA : ScmServiceApi} `{GC : !GitCollaborators} `{LC : LocaleCollation}.

Definition isConflicted (c : GitFileChange) : bool :=
  GitFileStatus_eqb (status c) Conflicted.

(** The changes of a status that may be undefined. *)
Definition changesOf (status : option WorkingDirectoryStatus) : list GitFileChange :=
  match status with Some s => changes s | None => [] end.

(** The icon of every change of the list resolves. *)
Definition iconsResolve (l : list GitFileChange) : bool :=
  forallb (fun c => isFulfilled (getIcon (URI_new (uri c)))) l.

(** What [makeResource] builds from a change once the icon is known. *)
Definition builtFrom (c : GitFileChange) (r : ScmResource) : Prop :=
  sourceUri r = URI_new (uri c) /\
  getIcon (URI_new (uri c)) = Fulfilled (icon (decorations r)) /\
  letter (decorations r) = toAbbreviation (status c) (staged c) /\
  color (decorations r) = getColor (status c) /\
  open_change r = c.

(** A group stands for a labelled bucket. *)
Definition groupOf (p : ProviderRef) (g : ScmResourceGroup)
           (bucket : string * list GitFileChange) : Prop :=
  label g = fst bucket /\
  provider g = p /\
  Permutation (map open_change (resources g)) (snd bucket).

Definition isEmpty {A} (l : list A) : bool :=
  match l with [] => true | _ => false end.

(** The labelled buckets in the order of [getGroups], the empty ones left out. *)
Definition nonEmptyBuckets (b : Buckets) : list (string * list GitFileChange) :=
  match b with
  | (stagedC, unstagedC, mergeC) =>
      filter (fun bucket => negb (isEmpty (snd bucket)))
             [("Staged changes", stagedC); ("Changes", unstagedC); ("Merged Changes", mergeC)]
  end.

(** All fields but the group counter agree. *)
Definition sameButCounter (st st' : GitViewContribution) : Prop :=
  st' = with_SCM_GROUP_ID (SCM_GROUP_ID st') st.

(** A sequence of calls of [getGroup], each given by its label, provider and
    changes; the result is the groups that were created, in the order of
    their creation.  (The part of [getGroup] that follows its [await] runs
    without interruption, so calls that overlap in time are such a sequence,
    in the order in which they complete.) *)
Fixpoint getGroup_sequence (calls : list (string * ProviderRef * list GitFileChange))
         (st : GitViewContribution) : list ScmResourceGroup * GitViewContribution :=
  match calls with
  | [] => ([], st)
  | (label, provider, changes) :: rest =>
      match getGroup label provider changes st with
      | (Fulfilled g, st') =>
          let (gs, st'') := getGroup_sequence rest st' in (g :: gs, st'')
      | (Rejected _, st') => getGroup_sequence rest st'
      end
  end.

(** The identifier was built from a value of the counter that is at least [n]. *)
Definition numberedFrom (n : N) (g : ScmResourceGroup) : Prop :=
  exists l k, id g = l ++ "_" ++ Number_toString k /\ (n <= k)%N.

Definition isRegistration (e : Effect) : bool :=
  match e with RegisterScmProvider _ => true | _ => false end.

Definition isDisposal (e : Effect) : bool :=
  match e with DisposeScmRepository _ => true | _ => false end.

(** A step publishes nothing: every provider object is as it was (its
    groups included), the two caches are as they were, and no
    resources-changed notification was fired. *)
Definition quiet (st st' : GitViewContribution) : Prop :=
  (forall r p, deref st r = Some p -> deref st' r = Some p) /\
  stagedChanges st' = stagedChanges st /\
  mergeChanges st' = mergeChanges st /\
  exists fired,
    trace st' = (trace st ++ fired)%list /\
    forall r, ~ In (Fire r DidChangeResources) fired.

(** A repository that no observed repository has the URI of. *)
Definition unobserved (st : GitViewContribution) (repo : Repository) : Prop :=
  forall d, In d (dirtyRepositories st) -> localUri d <> localUri repo.

(** A URI that no repository of the authoritative list has. *)
Definition absent (st : GitViewContribution) (u : string) : Prop :=
  forall a, In a (allRepositories st) -> localUri a <> u.

(** No tracked provider has the root URI [u]. *)
Definition untracked (st : GitViewContribution) (u : string) : Prop :=
  forall r, In r (scmProviders st) -> rootUri_is st u r = false.

(** The tracked references are distinct and point into the store, and the
    provider objects have distinct identifiers, numbered below the counter. *)
Definition wellFormed (st : GitViewContribution) : Prop :=
  Forall (fun r => (r < List.length (store st))%nat) (scmProviders st) /\
  NoDup (scmProviders st) /\
  Forall (fun p => exists k, _id p = "scm" ++ Number_toString k /\
                             (k < ScmProviderImpl_ID st)%N) (store st) /\
  NoDup (map _id (store st)).

(** The position of the first occurrence of a reference in a list. *)
Fixpoint firstIndex (x : ProviderRef) (l : list ProviderRef) : option nat :=
  match l with
  | [] => None
  | y :: l' => if Nat.eqb y x then Some O else option_map S (firstIndex x l')
  end.

(** A step leaves the tracking alone: the tracked references, the counter
    of provider identifiers, the observed and the authoritative list, and
    the identifier and root URI of every provider object. *)
Definition sameTracking (st st' : GitViewContribution) : Prop :=
  scmProviders st' = scmProviders st /\
  ScmProviderImpl_ID st' = ScmProviderImpl_ID st /\
  dirtyRepositories st' = dirtyRepositories st /\
  allRepositories st' = allRepositories st /\
  map _id (store st') = map _id (store st) /\
  map _rootUri (store st') = map _rootUri (store st).


End Vocabulary.

(** ** A concrete model of the collaborators *)

Module Sample.

(** URIs kept as the terms that built them. *)
Inductive SymbolicUri : Type :=
| Parsed (s : string)
| Scheme (u : SymbolicUri) (scheme : string)
| Query (u : SymbolicUri) (query : string)
| Diff (left right : SymbolicUri) (name : string).

Fixpoint symbolic_displayName (u : SymbolicUri) : string :=
  match u with
  | Parsed s => substring_from s (lastIndexOf s "/"%char + 1)
  | Scheme v _ => symbolic_displayName v
  | Query v _ => symbolic_displayName v
  | Diff _ _ name => name
  end.

Fixpoint symbolic_toString (u : SymbolicUri) : string :=
  match u with
  | Parsed s => s
  | Scheme v scheme => scheme ++ ":" ++ symbolic_toString v
  | Query v query => symbolic_toString v ++ "?" ++ query
  | Diff _ _ name => "diff:" ++ name
  end.

#[local] Instance symbolicUri : UriApi := {|
  URI := SymbolicUri;
  URI_new := Parsed;
  withScheme := Scheme;
  withQuery := Query;
  displayName := symbolic_displayName;
  URI_toString := symbolic_toString;
  DiffUris_encode := Diff
|}.

(** A service that keeps its repositories in a list. *)
#[local] Instance listScmService : ScmServiceApi := {|
  ScmService := list ScmRepository;
  ScmService_repositories := fun s => s;
  ScmService_registerScmProvider :=
    fun p s => ({| repo_provider := p |}, (s ++ [{| repo_provider := p |}])%list);
  ScmRepository_dispose :=
    fun r s => filter (fun x => negb (Nat.eqb (repo_provider x) (repo_provider r))) s
|}.

(** Icons resolve for every file but one. *)
#[local] Instance collaborators : GitCollaborators := {|
  GIT_RESOURCE_SCHEME := "gitrev";
  getIcon := fun u =>
    if symbolic_toString u =? "file:///r/broken.txt"
    then Rejected (ErrorObject "no icon")
    else Fulfilled "fa fa-file";
  toAbbreviation := fun s staged =>
    match s with
    | New => if staged then "A" else "U"
    | Copied => "C" | Modified => "M" | Renamed => "R" | Deleted => "D"
    | Conflicted => "C"
    end
|}.

Definition a_txt : GitFileChange :=
  {| uri := "file:///r/a.txt"; status := Modified; staged := true |}.
Definition b_txt : GitFileChange :=
  {| uri := "file:///r/b.txt"; status := New; staged := false |}.
Definition z_txt : GitFileChange :=
  {| uri := "file:///r/sub/Z.txt"; status := Deleted; staged := false |}.
Definition c_txt : GitFileChange :=
  {| uri := "file:///r/c.txt"; status := Conflicted; staged := false |}.
Definition d_txt : GitFileChange :=
  {| uri := "file:///r/d.txt"; status := Conflicted; staged := true |}.
Definition broken_txt : GitFileChange :=
  {| uri := "file:///r/broken.txt"; status := Modified; staged := false |}.

Definition statusOf (l : list GitFileChange) : WorkingDirectoryStatus :=
  {| branch := Some "master"; currentHead := Some "0123456789abcdef"; changes := l |}.

Definition repo : Repository := {| localUri := "file:///r" |}.

(** The contribution before [onStart], with no repository known. *)
Definition initial : GitViewContribution :=
  {| SCM_GROUP_ID := 0; ScmProviderImpl_ID := 0;
     dirtyRepositories := []; scmProviders := [];
     stagedChanges := []; mergeChanges := [];
     store := []; allRepositories := []; scmService := [];
     trace := [] |}.

(** One repository is present and has been registered. *)
Definition started : GitViewContribution :=
  checkNewOrRemovedRepositories
    {| SCM_GROUP_ID := 0; ScmProviderImpl_ID := 0;
       dirtyRepositories := []; scmProviders := [];
       stagedChanges := []; mergeChanges := [];
       store := []; allRepositories := [repo]; scmService := [];
       trace := [] |}.

(** The provider object that [started] holds. *)
Definition provider0 : ScmProviderImpl :=
  {| _id := "scm0"; _contextValue := "Git"; _label := "r";
     _rootUri := Some "file:///r"; _groups := None; _count := None |}.

Definition syncCommand : ScmCommand :=
  {| cmd_id := "vcs-sync-status"; cmd_text := "$(refresh)";
     cmd_tooltip := Some "Synchronize Changes"; cmd_command := Some "git.sync" |}.

Definition syncEntry : StatusBarEntry :=
  {| entry_text := "$(refresh)"; entry_tooltip := Some "Synchronize Changes";
     entry_command := Some "git.sync" |}.

Definition eventOf (l : list GitFileChange) : GitStatusChangeEvent :=
  {| source := repo; event_status := statusOf l |}.

(** A second repository, and a state in which both repositories have just
    appeared and none is observed yet. *)
Definition repo2 : Repository := {| localUri := "file:///s" |}.

Definition twoNew : GitViewContribution :=
  {| SCM_GROUP_ID := 0; ScmProviderImpl_ID := 0;
     dirtyRepositories := []; scmProviders := [];
     stagedChanges := []; mergeChanges := [];
     store := []; allRepositories := [repo; repo2]; scmService := [];
     trace := [] |}.

(** The path of a symbolic URI: what follows the scheme of a file URI. *)
Definition symbolic_path (u : SymbolicUri) : string :=
  match u with
  | Parsed s => if String.prefix "file://" s then substring_from s 7 else s
  | _ => symbolic_toString u
  end.

(** Removal of blanks and line ends at both ends of a string. *)
Definition isBlank (a : ascii) : bool :=
  (a =? " ")%char || (a =? "010")%char || (a =? "013")%char || (a =? "009")%char.

Fixpoint trimStart (s : string) : string :=
  match s with
  | String a s' => if isBlank a then trimStart s' else s
  | EmptyString => EmptyString
  end.

Fixpoint trimEnd (s : string) : string :=
  match s with
  | String a s' =>
      match trimEnd s' with
      | EmptyString => if isBlank a then EmptyString else String a EmptyString
      | rest => String a rest
      end
  | EmptyString => EmptyString
  end.

(** A backend whose configuration holds a name and an e-mail address, which
    refuses to commit with an empty message, and an error handler that
    returns. *)
#[local] Instance backend : GitBackend := {|
  git_commit := fun _ message _ _ =>
    if message =? "" then Rejected (ErrorObject "empty message") else Fulfilled tt;
  git_exec := fun _ args =>
    match args with
    | [_; key] =>
        if key =? "user.name" then Fulfilled ("Jane Doe" ++ String "010"%char EmptyString)
        else if key =? "user.email" then Fulfilled "jane@example.org"
        else Rejected (ErrorObject "no such key")
    | _ => Rejected (ErrorObject "usage")
    end;
  handleError := fun _ => None;
  trim := fun s => trimEnd (trimStart s)
|}.

Definition lib_a : ScmResource :=
  {| sourceUri := Parsed "file:///home/u/repo/lib/a.txt";
     decorations := {| icon := "fa fa-file"; letter := "M"; color := "var(--theia-brand-color0)" |};
     open_change := {| uri := "file:///home/u/repo/lib/a.txt"; status := Modified;
                       staged := false |} |}.

Definition conflict_c : ScmResource :=
  {| sourceUri := Parsed "file:///r/c.txt";
     decorations := {| icon := "fa fa-file"; letter := "C"; color := "var(--theia-error-color0)" |};
     open_change := c_txt |}.

(** Comparison of strings by their characters' codes. *)
Definition codePointCompare (a b : string) : Z :=
  match String.compare a b with Eq => 0 | Lt => -1 | Gt => 1 end.

Lemma codePointCompare_swap (a b : string) :
  Z.sgn (codePointCompare b a) = (- Z.sgn (codePointCompare a b))%Z.
Proof.
  unfold codePointCompare. rewrite (String.compare_antisym a b).
  destruct (String.compare b a); reflexivity.
Qed.

Lemma ascii_compare_refl (x : ascii) : Ascii.compare x x = Eq.
Proof. apply N.compare_refl. Qed.

Lemma ascii_compare_lt_trans (x y z : ascii) :
  Ascii.compare x y = Lt -> Ascii.compare y z = Lt -> Ascii.compare x z = Lt.
Proof.
  unfold Ascii.compare. rewrite !N.compare_lt_iff. apply N.lt_trans.
Qed.

Lemma string_compare_trans (a : string) :
  forall b c, String.compare a b <> Gt -> String.compare b c <> Gt -> String.compare a c <> Gt.
Proof.
  induction a as [|x a IH]; intros [|y b] [|z c]; simpl; try congruence.
  destruct (Ascii.compare x y) eqn:Exy, (Ascii.compare y z) eqn:Eyz; try congruence.
  - apply Ascii.compare_eq_iff in Exy, Eyz. subst. rewrite ascii_compare_refl. apply IH.
  - apply Ascii.compare_eq_iff in Exy. subst. rewrite Eyz. congruence.
  - apply Ascii.compare_eq_iff in Eyz. subst. rewrite Exy. congruence.
  - rewrite (ascii_compare_lt_trans x y z Exy Eyz). congruence.
Qed.

Lemma codePointCompare_trans (a b c : string) :
  (codePointCompare a b <= 0)%Z -> (codePointCompare b c <= 0)%Z ->
  (codePointCompare a c <= 0)%Z.
Proof.
  unfold codePointCompare. intros H1 H2.
  pose proof (string_compare_trans a b c) as T.
  destruct (String.compare a b), (String.compare b c), (String.compare a c);
    try lia; exfalso; apply T; congruence || lia.
Qed.

#[local] Instance codePointCollation : LocaleCollation := {|
  localeCompare := codePointCompare;
  localeCompare_swap := codePointCompare_swap;
  localeCompare_trans := codePointCompare_trans
|}.

End Sample.


(** ** Properties of the diff-URI resolver, the classifier and the marker *)

Section Properties.
Context `{UA : UriApi} `{SA : ScmServiceApi} `{GC : !GitCollaborators} `{LC : LocaleCollation}.

Lemma findByUri_inSet (l : list GitFileChange) (change : GitFileChange) :
  truthy (findByUri l change) = inSet l (uri change).
Proof.
  unfold findByUri, inSet, find.
  induction l as [|c l IH]; simpl; [reflexivity|].
  destruct (uri c =? uri change); [reflexivity | exact IH].
Qed.

Lemma Conflicted_name (s : GitFileStatus) :
  (GitFileStatus_name Conflicted =? GitFileStatus_name s) = GitFileStatus_eqb s Conflicted.
Proof. destruct s; reflexivity. Qed.

(** The loop of the classifier, started from any three buckets, appends to
    each the changes it selects, in their order. *)
Lemma classify_loop (l : list GitFileChange) :
  forall s u m,
    fold_left classifyChange l (s, u, m) =
    ((s ++ filter (fun c => negb (isConflicted c) && staged c) l)%list,
     (u ++ filter (fun c => negb (isConflicted c) && negb (staged c)) l)%list,
     (m ++ filter (fun c => isConflicted c && negb (staged c)) l)%list).
Proof.
  induction l as [|c l IH]; intros s u m; cbn [fold_left filter].
  - now rewrite !app_nil_r.
  - unfold classifyChange at 2. rewrite Conflicted_name. fold (isConflicted c).
    destruct (isConflicted c), (staged c); cbn [negb andb]; rewrite IH;
      rewrite <- ?app_assoc; reflexivity.
Qed.

Lemma classify_filters (status : option WorkingDirectoryStatus) :
  classify status =
  (filter (fun c => negb (isConflicted c) && staged c) (changesOf status),
   filter (fun c => negb (isConflicted c) && negb (staged c)) (changesOf status),
   filter (fun c => isConflicted c && negb (staged c)) (changesOf status)).
Proof.
  destruct status as [s|]; simpl; [|reflexivity].
  now rewrite classify_loop.
Qed.

Lemma buckets_cover (l : list GitFileChange) :
  Permutation
    (filter (fun c => negb (isConflicted c) && staged c) l ++
     filter (fun c => negb (isConflicted c) && negb (staged c)) l ++
     filter (fun c => isConflicted c && negb (staged c)) l)%list
    (filter (fun c => negb (isConflicted c && staged c)) l).
Proof.
  induction l as [|c l IH]; simpl; [constructor|].
  destruct (isConflicted c), (staged c); simpl.
  - exact IH.
  - rewrite app_assoc. symmetry. apply Permutation_cons_app.
    rewrite <- app_assoc. symmetry. exact IH.
  - now constructor.
  - symmetry. apply Permutation_cons_app. symmetry. exact IH.
Qed.

Lemma getGroups_no_change (status : option WorkingDirectoryStatus)
      (provider : ProviderRef) (st : GitViewContribution) :
  changesOf status = [] ->
  getGroups status provider st = (Fulfilled [], with_changes [] [] st).
Proof.
  intros E. unfold getGroups. rewrite classify_filters, E. reflexivity.
Qed.

(** C2.  The classifier of [getGroups] is one pass that keeps the input
    order: the staged bucket is the sub-list of non-conflicted staged changes,
    the unstaged bucket the sub-list of non-conflicted unstaged changes, the
    merge bucket the sub-list of conflicted unstaged changes; together they
    hold exactly the changes that are not both conflicted and staged; a
    conflicted staged change is in no bucket; no change is in two buckets;
    and an undefined status or one without changes gives three empty buckets
    and no group. *)
Theorem classifier_partitions (status : option WorkingDirectoryStatus) :
  match classify status with
  | (stagedC, unstagedC, mergeC) =>
      stagedC = filter (fun c => negb (isConflicted c) && staged c) (changesOf status) /\
      unstagedC = filter (fun c => negb (isConflicted c) && negb (staged c)) (changesOf status) /\
      mergeC = filter (fun c => isConflicted c && negb (staged c)) (changesOf status) /\
      Permutation (stagedC ++ unstagedC ++ mergeC)%list
                  (filter (fun c => negb (isConflicted c && staged c)) (changesOf status)) /\
      (forall c, isConflicted c = true -> staged c = true ->
                 ~ In c stagedC /\ ~ In c unstagedC /\ ~ In c mergeC) /\
      (forall c, ~ (In c stagedC /\ In c unstagedC) /\
                 ~ (In c stagedC /\ In c mergeC) /\
                 ~ (In c unstagedC /\ In c mergeC))
  end /\
  classify None = ([], [], []) /\
  (forall b h, classify (Some {| branch := b; currentHead := h; changes := [] |}) = ([], [], [])) /\
  (forall provider st, fst (getGroups None provider st) = Fulfilled []) /\
  (forall b h provider st,
      fst (getGroups (Some {| branch := b; currentHead := h; changes := [] |}) provider st)
      = Fulfilled []).
Proof.
  rewrite classify_filters.
  repeat split; try reflexivity.
  - apply buckets_cover.
  - rewrite filter_In. intros [_ E]. rewrite H in E. discriminate.
  - rewrite filter_In. intros [_ E]. rewrite H in E. discriminate.
  - rewrite filter_In. intros [_ E]. rewrite H0 in E.
    now rewrite andb_false_r in E.
  - rewrite !filter_In. intros [[_ E1] [_ E2]].
    destruct (isConflicted c), (staged c); discriminate.
  - rewrite !filter_In. intros [[_ E1] [_ E2]].
    destruct (isConflicted c), (staged c); discriminate.
  - rewrite !filter_In. intros [[_ E1] [_ E2]].
    destruct (isConflicted c), (staged c); discriminate.
Qed.

Lemma GitFileStatus_eqb_eq (a b : GitFileStatus) :
  GitFileStatus_eqb a b = true <-> a = b.
Proof. destruct a, b; simpl; split; intros E; try reflexivity; discriminate. Qed.

Lemma hasConflicts_Exists (l : list GitFileChange) :
  hasConflicts l = true <-> Exists (fun c => status c = Conflicted) l.
Proof.
  unfold hasConflicts, some. rewrite existsb_exists, Exists_exists.
  split; intros [c [I E]]; exists c; split; trivial; now apply GitFileStatus_eqb_eq.
Qed.

Lemma hasConflicts_none (l : list GitFileChange) :
  Forall (fun c => status c <> Conflicted) l -> hasConflicts l = false.
Proof.
  intros F. destruct (hasConflicts l) eqn:E; [|reflexivity].
  apply hasConflicts_Exists, Exists_exists in E. destruct E as [c [I E]].
  rewrite Forall_forall in F. now destruct (F c I).
Qed.

Lemma allStaged_Forall (l : list GitFileChange) :
  allStaged l = true <-> Forall (fun c => staged c = true) l.
Proof.
  unfold allStaged, some. induction l as [|c l IH]; simpl.
  - split; [constructor | reflexivity].
  - destruct (staged c) eqn:E; simpl.
    + rewrite IH. split; intros F; [now constructor | now inversion F].
    + split; [discriminate | intros F; inversion F; congruence].
Qed.

Lemma nonempty_length {A} (l : list A) : l <> [] -> (0 <? List.length l)%nat = true.
Proof. destruct l; [congruence | reflexivity]. Qed.

(** C10.  The marker that follows the branch name in the text of the
    checkout command is empty for an empty change list, ["!"] when some change
    is conflicted, ["+"] when none is conflicted and all are staged, and
    ["*"] in the remaining case. *)
Theorem dirtyMarker_cases (s : WorkingDirectoryStatus) :
  cmd_text (checkoutCommand s) =
    "$(code-fork) " ++ branchName s ++ dirtyMarker (changes s) /\
  (changes s = [] -> dirtyMarker (changes s) = "") /\
  (Exists (fun c => status c = Conflicted) (changes s) ->
   dirtyMarker (changes s) = "!") /\
  (changes s <> [] ->
   Forall (fun c => status c <> Conflicted) (changes s) ->
   Forall (fun c => staged c = true) (changes s) ->
   dirtyMarker (changes s) = "+") /\
  (changes s <> [] ->
   Forall (fun c => status c <> Conflicted) (changes s) ->
   ~ Forall (fun c => staged c = true) (changes s) ->
   dirtyMarker (changes s) = "*").
Proof.
  split; [reflexivity|].
  generalize (changes s) as l. intros l. unfold dirtyMarker. repeat split.
  - intros ->. reflexivity.
  - intros E. assert (N : l <> []) by (intros ->; inversion E).
    rewrite (nonempty_length l N).
    apply hasConflicts_Exists in E. now rewrite E.
  - intros N C F. rewrite (nonempty_length l N), (hasConflicts_none l C).
    apply allStaged_Forall in F. now rewrite F.
  - intros N C F. rewrite (nonempty_length l N), (hasConflicts_none l C).
    destruct (allStaged l) eqn:E; [|reflexivity].
    apply allStaged_Forall in E. contradiction.
Qed.

End Properties.

(** ** Sorting with a consistent comparator *)

Section SortFacts.
Context {A : Type} (cmp : A -> A -> Z).
Hypothesis cmp_swap : forall a b, Z.sgn (cmp b a) = (- Z.sgn (cmp a b))%Z.
Hypothesis cmp_trans : forall a b c, (cmp a b <= 0)%Z -> (cmp b c <= 0)%Z -> (cmp a c <= 0)%Z.

Lemma cmp_gt_flip (a b : A) : (0 < cmp a b)%Z -> (cmp b a <= 0)%Z.
Proof. intros H. pose proof (cmp_swap a b). lia. Qed.

Lemma cmp_tie_flip (a b : A) : cmp a b = 0%Z -> cmp b a = 0%Z.
Proof. intros H. pose proof (cmp_swap a b). lia. Qed.

Lemma sort_insert_perm (x : A) (l : list A) : Permutation (sort_insert cmp x l) (x :: l).
Proof.
  induction l as [|y l IH]; simpl; [reflexivity|].
  destruct (cmp x y <=? 0)%Z; [reflexivity|].
  rewrite IH. apply perm_swap.
Qed.

Lemma sort_perm (l : list A) : Permutation (Js.sort cmp l) l.
Proof.
  induction l as [|x l IH]; simpl; [constructor|].
  rewrite sort_insert_perm. now constructor.
Qed.

Lemma sort_insert_sorted (x : A) (l : list A) :
  StronglySorted (fun a b => (cmp a b <= 0)%Z) l ->
  StronglySorted (fun a b => (cmp a b <= 0)%Z) (sort_insert cmp x l).
Proof.
  induction l as [|y l IH]; intros S; simpl.
  - constructor; constructor.
  - inversion S as [|? ? S' F]; subst.
    destruct (cmp x y <=? 0)%Z eqn:E.
    + apply Z.leb_le in E. constructor; [exact S|].
      constructor; [exact E|].
      rewrite Forall_forall in *. intros z I. eapply cmp_trans; eauto.
    + apply Z.leb_gt in E. constructor; [now apply IH|].
      rewrite Forall_forall in *. intros z I.
      apply (Permutation_in _ (sort_insert_perm x l)) in I.
      destruct I as [<- | I]; [now apply cmp_gt_flip | now apply F].
Qed.

Lemma sort_sorted (l : list A) :
  StronglySorted (fun a b => (cmp a b <= 0)%Z) (Js.sort cmp l).
Proof.
  induction l as [|x l IH]; simpl; [constructor | now apply sort_insert_sorted].
Qed.

(** Elements that tie with [k] are never reordered by an insertion. *)
Lemma sort_insert_stable (k x : A) (l : list A) :
  filter (fun y => (cmp k y =? 0)%Z) (sort_insert cmp x l) =
  filter (fun y => (cmp k y =? 0)%Z) (x :: l).
Proof.
  induction l as [|y l IH]; [reflexivity|].
  cbn [sort_insert]. destruct (cmp x y <=? 0)%Z eqn:E; [reflexivity|].
  apply Z.leb_gt in E.
  cbn [filter] in *. rewrite IH.
  destruct (cmp k x =? 0)%Z eqn:Ex, (cmp k y =? 0)%Z eqn:Ey; try reflexivity.
  apply Z.eqb_eq in Ex, Ey. apply cmp_tie_flip in Ex.
  assert (cmp x y <= 0)%Z by (apply (cmp_trans x k y); lia). lia.
Qed.

Lemma sort_stable (k : A) (l : list A) :
  filter (fun y => (cmp k y =? 0)%Z) (Js.sort cmp l) =
  filter (fun y => (cmp k y =? 0)%Z) l.
Proof.
  induction l as [|x l IH]; [reflexivity|].
  cbn [Js.sort]. rewrite sort_insert_stable. cbn [filter]. now rewrite IH.
Qed.

End SortFacts.

(** ** Group identifiers *)

Lemma digits_no_underscore (d : Decimal.uint) :
  ~ In "_"%char (list_ascii_of_string (NilEmpty.string_of_uint d)).
Proof.
  induction d; simpl; [tauto | intros [H|H]; [discriminate | auto] ..].
Qed.

Lemma Number_toString_inj (a b : N) : Number_toString a = Number_toString b -> a = b.
Proof.
  unfold Number_toString. intros E.
  apply DecimalN.Unsigned.to_uint_inj.
  apply (f_equal NilEmpty.uint_of_string) in E.
  rewrite !NilEmpty.usu in E. congruence.
Qed.

Lemma list_ascii_of_string_app (a b : string) :
  list_ascii_of_string (a ++ b) = (list_ascii_of_string a ++ list_ascii_of_string b)%list.
Proof. induction a; simpl; congruence. Qed.

(** A sequence is cut in one way only at its last separator. *)
Lemma cut_at_last {A} (sep : A) (l1 : list A) :
  forall l2 d1 d2,
    ~ In sep d1 -> ~ In sep d2 ->
    (l1 ++ sep :: d1 = l2 ++ sep :: d2)%list -> d1 = d2.
Proof.
  induction l1 as [|a l1 IH]; intros [|b l2] d1 d2 N1 N2 E; simpl in E.
  - congruence.
  - injection E as E1 E2. subst. exfalso. apply N1, in_or_app. right. now left.
  - injection E as E1 E2. subst. exfalso. apply N2, in_or_app. right. now left.
  - injection E as E1 E2. eauto.
Qed.

(** The identifier of a group determines the value of the counter it was
    built from, whatever the labels are. *)
Lemma group_id_inj (label1 label2 : string) (n1 n2 : N) :
  label1 ++ "_" ++ Number_toString n1 = label2 ++ "_" ++ Number_toString n2 -> n1 = n2.
Proof.
  intros E. apply Number_toString_inj.
  apply (f_equal list_ascii_of_string) in E.
  rewrite !list_ascii_of_string_app in E. simpl in E.
  apply cut_at_last in E; try apply digits_no_underscore.
  rewrite <- (string_of_list_ascii_of_string (Number_toString n1)),
          <- (string_of_list_ascii_of_string (Number_toString n2)).
  now f_equal.
Qed.

Lemma Number_succ_exact (n : N) : (n < MAX_EXACT)%N -> Number_succ n = (n + 1)%N.
Proof. unfold Number_succ. intros H. apply N.ltb_lt in H. now rewrite H. Qed.

(** ** The last segment of a path *)

Lemma lastIndexOf_from_absent (c : ascii) (q : string) :
  ~ In c (list_ascii_of_string q) ->
  forall i found, lastIndexOf_from c q i found = found.
Proof.
  induction q as [|a q IH]; simpl; intros N i found; [reflexivity|].
  destruct (Ascii.eqb_spec a c) as [->|D]; [exfalso; auto|].
  apply IH. auto.
Qed.

Lemma lastIndexOf_from_last (c : ascii) (p q : string) :
  ~ In c (list_ascii_of_string q) ->
  forall i found,
    lastIndexOf_from c (p ++ String c q) i found = (i + Z.of_nat (String.length p))%Z.
Proof.
  intros N. induction p as [|a p IH]; intros i found.
  - cbn [append lastIndexOf_from String.length]. rewrite Ascii.eqb_refl.
    rewrite lastIndexOf_from_absent by exact N. cbn. lia.
  - cbn [append lastIndexOf_from String.length]. rewrite IH. lia.
Qed.

Lemma substring_whole (r : string) : String.substring 0 (String.length r) r = r.
Proof. induction r as [|a r IH]; simpl; [reflexivity | now rewrite IH]. Qed.

Lemma substring_after_prefix (p r : string) (m : nat) :
  String.substring (String.length p) m (p ++ r) = String.substring 0 m r.
Proof. induction p as [|a p IH]; simpl; [reflexivity | exact IH]. Qed.

Lemma string_length_app (p r : string) :
  String.length (p ++ r) = (String.length p + String.length r)%nat.
Proof. induction p as [|a p IH]; simpl; [reflexivity | now rewrite IH]. Qed.

(** [s.substring(s.lastIndexOf('/'))] is the part of [s] from its last slash
    on, the slash included; it is [s] itself when [s] has no slash. *)
Lemma substring_from_last_slash (p q : string) :
  ~ In "/"%char (list_ascii_of_string q) ->
  substring_from (p ++ "/" ++ q) (lastIndexOf (p ++ "/" ++ q) "/"%char) = "/" ++ q.
Proof.
  intros N. unfold lastIndexOf, substring_from.
  change (p ++ "/" ++ q) with (p ++ String "/"%char q).
  rewrite lastIndexOf_from_last by exact N.
  replace (Z.to_nat (Z.max 0 (0 + Z.of_nat (String.length p)))) with (String.length p) by lia.
  rewrite substring_after_prefix, string_length_app.
  replace (String.length p + String.length (String "/"%char q) - String.length p)%nat
    with (String.length (String "/"%char q)) by lia.
  apply substring_whole.
Qed.

Lemma substring_from_no_slash (s : string) :
  ~ In "/"%char (list_ascii_of_string s) ->
  substring_from s (lastIndexOf s "/"%char) = s.
Proof.
  intros N. unfold lastIndexOf, substring_from.
  rewrite lastIndexOf_from_absent by exact N. cbn [Z.max Z.compare Z.to_nat].
  rewrite Nat.sub_0_r. apply substring_whole.
Qed.

(** ** Properties of [getGroup] and [getGroups] *)

Section GroupProperties.
Context `{UA : UriApi} `{SA : ScmServiceApi} `{GC : !GitCollaborators} `{LC : LocaleCollation}.

Lemma resources_resolve (l : list GitFileChange) :
  iconsResolve l = true ->
  exists rs, Promise_all (map makeResource l) = Fulfilled rs /\ Forall2 builtFrom l rs.
Proof.
  induction l as [|c l IH]; simpl; intros H.
  - exists []. split; [reflexivity | constructor].
  - apply andb_true_iff in H. destruct H as [Hc Hl].
    destruct (IH Hl) as [rs [E F]].
    unfold makeResource at 1.
    destruct (getIcon (URI_new (uri c))) as [i|e] eqn:Ei; [|discriminate].
    rewrite E. eexists. split; [reflexivity|].
    constructor; [|exact F]. unfold builtFrom. simpl. auto.
Qed.

Lemma resources_reject (l : list GitFileChange) :
  iconsResolve l = false ->
  exists e, Promise_all (map makeResource l) = Rejected e.
Proof.
  induction l as [|c l IH]; simpl; intros H; [discriminate|].
  unfold makeResource at 1.
  destruct (getIcon (URI_new (uri c))) as [i|e] eqn:Ei; [|eauto].
  simpl in H. destruct (IH H) as [e E]. rewrite E. eauto.
Qed.

Lemma builtFrom_changes (l : list GitFileChange) (rs : list ScmResource) :
  Forall2 builtFrom l rs -> map open_change rs = l.
Proof.
  induction 1 as [|c r l rs B F IH]; simpl; [reflexivity|].
  destruct B as (_ & _ & _ & _ & ->). now rewrite IH.
Qed.

Lemma getGroup_fulfilled (label : string) (provider : ProviderRef)
      (l : list GitFileChange) (st : GitViewContribution) :
  iconsResolve l = true ->
  exists rs,
    Forall2 builtFrom l rs /\
    getGroup label provider l st =
    (Fulfilled {| label := label; hideWhenEmpty := false;
                  id := label ++ "_" ++ Number_toString (SCM_GROUP_ID st);
                  provider := provider;
                  resources := Js.sort sortResources rs |},
     with_SCM_GROUP_ID (Number_succ (SCM_GROUP_ID st)) st).
Proof.
  intros H. destruct (resources_resolve l H) as [rs [E F]].
  exists rs. split; [exact F|]. unfold getGroup. now rewrite E.
Qed.

Lemma getGroup_rejected (label : string) (provider : ProviderRef)
      (l : list GitFileChange) (st : GitViewContribution) :
  iconsResolve l = false ->
  exists e, getGroup label provider l st = (Rejected e, st).
Proof.
  intros H. destruct (resources_reject l H) as [e E].
  exists e. unfold getGroup. now rewrite E.
Qed.

Lemma sortResources_swap (a b : ScmResource) :
  Z.sgn (sortResources b a) = (- Z.sgn (sortResources a b))%Z.
Proof. apply localeCompare_swap. Qed.

Lemma sortResources_trans (a b c : ScmResource) :
  (sortResources a b <= 0)%Z -> (sortResources b c <= 0)%Z -> (sortResources a c <= 0)%Z.
Proof. apply localeCompare_trans. Qed.

(** C4.  When the icons of the changes resolve, [getGroup] returns a group
    whose resources are those built from the changes, ordered by the last
    segment of the stringified source URI under [localeCompare]; the sort is
    stable: the resources that tie with any given one are in the order of
    the bucket.  The last segment is the part of the stringified URI from
    its last slash on. *)
Theorem getGroup_resources_sorted (label : string) (provider : ProviderRef)
        (l : list GitFileChange) (st : GitViewContribution) :
  iconsResolve l = true ->
  exists g st' inBucketOrder,
    getGroup label provider l st = (Fulfilled g, st') /\
    Forall2 builtFrom l inBucketOrder /\
    Permutation (resources g) inBucketOrder /\
    StronglySorted
      (fun a b => (localeCompare (lastSegment a) (lastSegment b) <= 0)%Z) (resources g) /\
    (forall k,
      filter (fun r => (localeCompare (lastSegment k) (lastSegment r) =? 0)%Z) (resources g) =
      filter (fun r => (localeCompare (lastSegment k) (lastSegment r) =? 0)%Z) inBucketOrder) /\
    (forall r p q,
        URI_toString (sourceUri r) = p ++ "/" ++ q ->
        ~ In "/"%char (list_ascii_of_string q) ->
        lastSegment r = "/" ++ q).
Proof.
  intros H. destruct (getGroup_fulfilled label provider l st H) as [rs [F E]].
  eexists _, _, rs. split; [exact E|]. cbn [resources].
  split; [exact F|]. split; [apply sort_perm|]. split; [|split].
  - apply (sort_sorted sortResources sortResources_swap sortResources_trans).
  - intros k. apply (sort_stable sortResources sortResources_swap sortResources_trans).
  - intros r p q E' N. unfold lastSegment. rewrite E'. now apply substring_from_last_slash.
Qed.

Lemma forallb_Permutation {A} (f : A -> bool) (l l' : list A) :
  Permutation l l' -> forallb f l = forallb f l'.
Proof.
  induction 1; simpl; try congruence.
  now rewrite !andb_assoc, (andb_comm (f y)).
Qed.

(** The icons of the changes that reach a bucket resolve exactly when they
    resolve in each of the three buckets. *)
Lemma iconsResolve_buckets (cs : list GitFileChange) :
  iconsResolve (filter (fun c => negb (isConflicted c && staged c)) cs) =
  iconsResolve (filter (fun c => negb (isConflicted c) && staged c) cs) &&
  iconsResolve (filter (fun c => negb (isConflicted c) && negb (staged c)) cs) &&
  iconsResolve (filter (fun c => isConflicted c && negb (staged c)) cs).
Proof.
  unfold iconsResolve.
  rewrite <- (forallb_Permutation _ _ _ (buckets_cover cs)).
  now rewrite !forallb_app, andb_assoc.
Qed.

Lemma sameButCounter_refl (st : GitViewContribution) : sameButCounter st st.
Proof. unfold sameButCounter. now destruct st. Qed.

Lemma sameButCounter_trans (a b c : GitViewContribution) :
  sameButCounter a b -> sameButCounter b c -> sameButCounter a c.
Proof. unfold sameButCounter. intros -> ->. reflexivity. Qed.

Lemma pushGroup_fulfilled (groups : list ScmResourceGroup) (label : string)
      (provider : ProviderRef) (bucket : list GitFileChange) (st : GitViewContribution) :
  iconsResolve bucket = true ->
  exists gs st',
    pushGroup groups label provider bucket st = (Fulfilled (groups ++ gs)%list, st') /\
    Forall2 (groupOf provider) gs
            (filter (fun b => negb (isEmpty (snd b))) [(label, bucket)]) /\
    sameButCounter st st'.
Proof.
  intros H. unfold pushGroup. destruct bucket as [|c bucket].
  - exists [], st. simpl. rewrite app_nil_r.
    repeat split; [constructor | apply sameButCounter_refl].
  - cbn [List.length Nat.ltb Nat.leb]. unfold bind.
    destruct (getGroup_fulfilled label provider (c :: bucket) st H) as [rs [F ->]].
    eexists [_], _. split; [reflexivity|]. split.
    + cbn. constructor; [|constructor]. repeat split; cbn.
      rewrite (sort_perm sortResources rs). now rewrite (builtFrom_changes _ _ F).
    + reflexivity.
Qed.

Lemma pushGroup_rejected (groups : list ScmResourceGroup) (label : string)
      (provider : ProviderRef) (bucket : list GitFileChange) (st : GitViewContribution) :
  iconsResolve bucket = false ->
  exists e, pushGroup groups label provider bucket st = (Rejected e, st).
Proof.
  intros H. unfold pushGroup. destruct bucket as [|c bucket]; [discriminate|].
  cbn [List.length Nat.ltb Nat.leb]. unfold bind.
  destruct (getGroup_rejected label provider (c :: bucket) st H) as [e ->]. eauto.
Qed.

Lemma nonEmptyBuckets_app (s u m : list GitFileChange) :
  nonEmptyBuckets (s, u, m) =
  (filter (fun b => negb (isEmpty (snd b))) [("Staged changes", s)] ++
   filter (fun b => negb (isEmpty (snd b))) [("Changes", u)] ++
   filter (fun b => negb (isEmpty (snd b))) [("Merged Changes", m)])%list.
Proof. destruct s, u, m; reflexivity. Qed.

(** When the icons resolve, [getGroups] fulfils, with one group for each
    non-empty bucket, and has stored the staged and the merge bucket. *)
Lemma getGroups_fulfilled (wds : option WorkingDirectoryStatus)
      (provider : ProviderRef) (st : GitViewContribution) :
  iconsResolve (filter (fun c => negb (isConflicted c && staged c)) (changesOf wds)) = true ->
  exists groups st',
    getGroups wds provider st = (Fulfilled groups, st') /\
    Forall2 (groupOf provider) groups (nonEmptyBuckets (classify wds)) /\
    stagedChanges st' = fst (fst (classify wds)) /\
    mergeChanges st' = snd (classify wds).
Proof.
  rewrite iconsResolve_buckets, !andb_true_iff. intros [[Hs Hu] Hm].
  unfold getGroups. rewrite classify_filters. cbv beta iota. unfold bind at 1.
  destruct (pushGroup_fulfilled [] "Staged changes" provider _ st Hs) as (g1 & st1 & -> & F1 & _).
  unfold bind at 1.
  destruct (pushGroup_fulfilled ([] ++ g1) "Changes" provider _ st1 Hu) as (g2 & st2 & -> & F2 & _).
  unfold bind at 1.
  destruct (pushGroup_fulfilled (([] ++ g1) ++ g2) "Merged Changes" provider _ st2 Hm)
    as (g3 & st3 & -> & F3 & _).
  eexists _, _. split; [reflexivity|]. split; [|split; reflexivity].
  cbn [app]. rewrite <- app_assoc. rewrite nonEmptyBuckets_app.
  repeat apply Forall2_app; assumption.
Qed.

(** C3.  When the icons resolve, [getGroups] returns one group for each
    non-empty bucket and none for an empty one, in the order staged,
    unstaged, merge, labelled "Staged changes", "Changes" and
    "Merged Changes"; each group holds the resources of its bucket. *)
Theorem getGroups_one_group_per_bucket (wds : option WorkingDirectoryStatus)
        (provider : ProviderRef) (st : GitViewContribution) :
  iconsResolve (filter (fun c => negb (isConflicted c && staged c)) (changesOf wds)) = true ->
  exists groups st',
    getGroups wds provider st = (Fulfilled groups, st') /\
    Forall2 (groupOf provider) groups (nonEmptyBuckets (classify wds)).
Proof.
  intros H. destruct (getGroups_fulfilled wds provider st H) as (groups & st' & E & F & _).
  exists groups, st'. now split.
Qed.

Lemma getGroup_sequence_ids (calls : list (string * ProviderRef * list GitFileChange)) :
  forall st,
    (SCM_GROUP_ID st + N.of_nat (List.length calls) <= MAX_EXACT)%N ->
    let (gs, st') := getGroup_sequence calls st in
    SCM_GROUP_ID st' = (SCM_GROUP_ID st + N.of_nat (List.length gs))%N /\
    (List.length gs <= List.length calls)%nat /\
    Forall (numberedFrom (SCM_GROUP_ID st)) gs /\
    NoDup (map id gs).
Proof.
  induction calls as [|[[label provider] changes] rest IH]; intros st B.
  - cbn. rewrite N.add_0_r. repeat split; constructor.
  - cbn [getGroup_sequence]. cbn [List.length] in B.
    destruct (iconsResolve changes) eqn:R.
    + destruct (getGroup_fulfilled label provider changes st R) as [rs [_ ->]].
      assert (L : (SCM_GROUP_ID st < MAX_EXACT)%N) by lia.
      rewrite (Number_succ_exact _ L).
      specialize (IH (with_SCM_GROUP_ID (SCM_GROUP_ID st + 1) st)).
      cbn [SCM_GROUP_ID with_SCM_GROUP_ID] in IH.
      destruct (getGroup_sequence rest _) as [gs st''].
      destruct IH as (C & Len & F & D); [lia|].
      cbn [List.length map id]. repeat split.
      * lia.
      * lia.
      * constructor.
        -- exists label, (SCM_GROUP_ID st). split; [reflexivity | lia].
        -- eapply Forall_impl; [|exact F].
           intros g (l & k & E & K). exists l, k. split; [exact E | lia].
      * constructor; [|exact D].
        intros I. apply in_map_iff in I. destruct I as (g & E & I).
        rewrite Forall_forall in F. destruct (F g I) as (l & k & E' & K).
        rewrite E' in E. apply group_id_inj in E. lia.
    + destruct (getGroup_rejected label provider changes st R) as [e ->].
      specialize (IH st). destruct (getGroup_sequence rest st) as [gs st''].
      destruct IH as (C & Len & F & D); [lia|].
      repeat split; trivial. cbn [List.length]. lia.
Qed.

(** C5.  In a sequence of calls of [getGroup] the identifiers of the groups
    created are pairwise different, whatever their labels and contents, and
    the counter has advanced by one for each group created.  (The counter is
    a number: the sequence is one that keeps it within the integers a number
    represents exactly.) *)
Theorem group_ids_never_repeat (calls : list (string * ProviderRef * list GitFileChange))
        (st : GitViewContribution) :
  (SCM_GROUP_ID st + N.of_nat (List.length calls) <= MAX_EXACT)%N ->
  NoDup (map id (fst (getGroup_sequence calls st))) /\
  SCM_GROUP_ID (snd (getGroup_sequence calls st)) =
    (SCM_GROUP_ID st + N.of_nat (List.length (fst (getGroup_sequence calls st))))%N.
Proof.
  intros B. pose proof (getGroup_sequence_ids calls st B) as H.
  destruct (getGroup_sequence calls st) as [gs st']. cbn [fst snd].
  destruct H as (C & _ & _ & D). split; assumption.
Qed.

End GroupProperties.

(** ** The repository tracker and the handler of git events *)

Section HandlerProperties.
Context `{UA : UriApi} `{SA : ScmServiceApi} `{GC : !GitCollaborators} `{LC : LocaleCollation}.

(** What one run of the tracker does: it may register one provider, then
    may dispose one repository; provider objects are only added; the caches
    and the authoritative list are left alone; the observed list becomes the
    authoritative one. *)
Lemma checkNewOrRemovedRepositories_effects (st : GitViewContribution) :
  exists regs disps created,
    trace (checkNewOrRemovedRepositories st) = (trace st ++ regs ++ disps)%list /\
    store (checkNewOrRemovedRepositories st) = (store st ++ created)%list /\
    stagedChanges (checkNewOrRemovedRepositories st) = stagedChanges st /\
    mergeChanges (checkNewOrRemovedRepositories st) = mergeChanges st /\
    allRepositories (checkNewOrRemovedRepositories st) = allRepositories st /\
    dirtyRepositories (checkNewOrRemovedRepositories st) = allRepositories st /\
    (regs = [] \/ exists p, regs = [RegisterScmProvider p]) /\
    (disps = [] \/ exists r, disps = [DisposeScmRepository r]).
Proof.
  unfold checkNewOrRemovedRepositories.
  destruct (find _ (allRepositories st)) as [a|].
  - unfold registerScmProvider, ScmProviderImpl_new.
    destruct (ScmService_registerScmProvider _ _) as [repo service]. cbn [snd].
    match goal with |- context [emit ?e ?x] => set (st1 := emit e x) end.
    destruct (find _ (dirtyRepositories st1)) as [r|].
    + destruct (find _ (ScmService_repositories (scmService st1))) as [sr|].
      * destruct (_ >? _)%Z;
          exists [RegisterScmProvider (List.length (store st))], [DisposeScmRepository sr];
          eexists; cbn; rewrite <- ?app_assoc; repeat split; eauto.
      * exists [RegisterScmProvider (List.length (store st))], []; eexists;
          cbn; repeat split; eauto.
    + exists [RegisterScmProvider (List.length (store st))], []; eexists;
        cbn; repeat split; eauto.
  - destruct (find _ (dirtyRepositories st)) as [r|].
    + destruct (find _ (ScmService_repositories (scmService st))) as [sr|].
      * destruct (_ >? _)%Z;
          exists [], [DisposeScmRepository sr], []; cbn; rewrite ?app_nil_r;
          repeat split; eauto.
      * exists [], [], []; cbn; rewrite ?app_nil_r; repeat split; eauto.
    + exists [], [], []; cbn; rewrite ?app_nil_r; repeat split; eauto.
Qed.

(** No element of a list differs from all the elements of that list. *)
Lemma find_absent_in_itself {A} (f : A -> string) (l : list A) :
  find (fun x => every (fun d => negb (f d =? f x)) l) l = None.
Proof.
  assert (G : forall l', incl l' l ->
                         find (fun x => every (fun d => negb (f d =? f x)) l) l' = None).
  { induction l' as [|x l' IH]; intros I; [reflexivity|].
    unfold find in *. cbn [List.find].
    destruct (every _ l) eqn:E.
    - unfold every in E. rewrite forallb_forall in E.
      specialize (E x (I x (or_introl eq_refl))).
      now rewrite String.eqb_refl in E.
    - apply IH. intros y Hy. apply I. now right. }
  apply G, incl_refl.
Qed.

Lemma checkNewOrRemovedRepositories_settled (st : GitViewContribution) :
  dirtyRepositories st = allRepositories st ->
  checkNewOrRemovedRepositories st = st.
Proof.
  intros E. unfold checkNewOrRemovedRepositories.
  rewrite E, (find_absent_in_itself localUri). cbv zeta.
  rewrite E, (find_absent_in_itself localUri).
  destruct st; cbn in *. now subst.
Qed.

(** C8.  One run of [checkNewOrRemovedRepositories] registers at most one
    provider and disposes at most one repository, and leaves the
    authoritative list alone; run again on the state it produced, it
    changes nothing: no registration, no disposal. *)
Theorem checkNewOrRemovedRepositories_once (st : GitViewContribution) :
  (exists new,
      trace (checkNewOrRemovedRepositories st) = (trace st ++ new)%list /\
      (List.length (filter isRegistration new) <= 1)%nat /\
      (List.length (filter isDisposal new) <= 1)%nat) /\
  allRepositories (checkNewOrRemovedRepositories st) = allRepositories st /\
  checkNewOrRemovedRepositories (checkNewOrRemovedRepositories st) =
    checkNewOrRemovedRepositories st.
Proof.
  destruct (checkNewOrRemovedRepositories_effects st)
    as (regs & disps & created & T & _ & _ & _ & A & D & R & P).
  split; [|split; [exact A|]].
  - exists (regs ++ disps)%list. split; [exact T|].
    destruct R as [-> | [p ->]], P as [-> | [r ->]]; cbn; lia.
  - apply checkNewOrRemovedRepositories_settled. congruence.
Qed.

Lemma quiet_refl (st : GitViewContribution) : quiet st st.
Proof.
  repeat split; trivial. exists []. now rewrite app_nil_r.
Qed.

Lemma quiet_trans (a b c : GitViewContribution) : quiet a b -> quiet b c -> quiet a c.
Proof.
  intros (D1 & S1 & M1 & f1 & T1 & N1) (D2 & S2 & M2 & f2 & T2 & N2).
  repeat split; [auto | congruence | congruence |].
  exists (f1 ++ f2)%list. split.
  - now rewrite T2, T1, app_assoc.
  - intros r I. apply in_app_or in I. destruct I; [eapply N1 | eapply N2]; eauto.
Qed.

Lemma store_update_same (l : list ScmProviderImpl) :
  forall r p, nth_error l r = Some p -> store_update r p l = l.
Proof.
  induction l as [|q l IH]; intros [|r] p E; simpl in *; try discriminate.
  - congruence.
  - now rewrite IH.
Qed.

Lemma checkNewOrRemovedRepositories_quiet (st : GitViewContribution) :
  quiet st (checkNewOrRemovedRepositories st).
Proof.
  destruct (checkNewOrRemovedRepositories_effects st)
    as (regs & disps & created & T & S & C & M & _ & _ & R & P).
  repeat split; trivial.
  - intros r p E. unfold deref in *. rewrite S.
    rewrite nth_error_app1; [exact E|]. apply nth_error_Some. congruence.
  - exists (regs ++ disps)%list. split; [exact T|].
    intros r I. apply in_app_or in I.
    destruct R as [-> | [p ->]], P as [-> | [x ->]], I as [I|I];
      simpl in I; intuition discriminate.
Qed.

Lemma updateSyncStatusBarEntry_quiet (entry : option StatusBarEntry)
      (repositoryUri : option string) (st : GitViewContribution) :
  quiet st (updateSyncStatusBarEntry entry repositoryUri st).
Proof.
  assert (Q : forall e, quiet st (emit [StatusBarRemoveElement e] st)).
  { intros e. repeat split; trivial. eexists. split; [reflexivity|].
    intros r [I|[]]. discriminate. }
  unfold updateSyncStatusBarEntry.
  destruct entry as [e|], repositoryUri as [u|]; try apply Q.
  destruct (truthy_string (Some u)); [|apply Q].
  destruct (find _ _) as [r|]; [|apply quiet_refl].
  unfold call. destruct (deref st r) as [p|] eqn:E; [|apply quiet_refl].
  cbn. repeat split; trivial.
  - unfold deref in *. cbn. now rewrite (store_update_same _ _ _ E).
  - eexists. split; [reflexivity|]. intros r' [I|[]]. discriminate.
Qed.

Lemma sameButCounter_quiet (st st' : GitViewContribution) :
  sameButCounter st st' -> quiet st st'.
Proof.
  unfold sameButCounter. intros ->. repeat split; trivial.
  exists []. cbn. now rewrite app_nil_r.
Qed.

(** A rejected icon makes [getGroups] reject, before it stores the caches. *)
Lemma getGroups_rejected (status : option WorkingDirectoryStatus)
      (provider : ProviderRef) (st : GitViewContribution) :
  iconsResolve (filter (fun c => negb (isConflicted c && staged c)) (changesOf status)) = false ->
  exists e st', getGroups status provider st = (Rejected e, st') /\ sameButCounter st st'.
Proof.
  rewrite iconsResolve_buckets. intros H.
  unfold getGroups. rewrite classify_filters. cbv beta iota.
  set (s := filter (fun c => negb (isConflicted c) && staged c) _) in *.
  set (u := filter (fun c => negb (isConflicted c) && negb (staged c)) _) in *.
  set (m := filter (fun c => isConflicted c && negb (staged c)) _) in *.
  unfold bind at 1. destruct (iconsResolve s) eqn:Hs.
  - destruct (pushGroup_fulfilled [] "Staged changes" provider s st Hs) as (g1 & st1 & -> & _ & Q1).
    unfold bind at 1. destruct (iconsResolve u) eqn:Hu.
    + destruct (pushGroup_fulfilled ([] ++ g1) "Changes" provider u st1 Hu)
        as (g2 & st2 & -> & _ & Q2).
      unfold bind at 1. simpl in H.
      destruct (pushGroup_rejected (([] ++ g1) ++ g2) "Merged Changes" provider m st2 H)
        as [e ->].
      exists e, st2. split; [reflexivity|]. eapply sameButCounter_trans; eauto.
    + destruct (pushGroup_rejected ([] ++ g1) "Changes" provider u st1 Hu) as [e ->].
      exists e, st1. split; [reflexivity | exact Q1].
  - destruct (pushGroup_rejected [] "Staged changes" provider s st Hs) as [e ->].
    exists e, st. split; [reflexivity | apply sameButCounter_refl].
Qed.

(** C6.  When the icon of a change of some bucket is rejected, [getGroups]
    rejects without touching the cached staged and merge sets, and the
    handler of the git event publishes nothing: every provider keeps its
    groups, no resources-changed notification is fired, and the two caches
    are as before. *)
Theorem rejected_icon_publishes_nothing (event : GitStatusChangeEvent)
        (entry : option StatusBarEntry) (st : GitViewContribution)
        (c : GitFileChange) (reason : Value) :
  In c (changes (event_status event)) ->
  isConflicted c && staged c = false ->
  getIcon (URI_new (uri c)) = Rejected reason ->
  (forall provider st0,
      exists e st1,
        getGroups (Some (event_status event)) provider st0 = (Rejected e, st1) /\
        stagedChanges st1 = stagedChanges st0 /\
        mergeChanges st1 = mergeChanges st0) /\
  (forall r p, deref st r = Some p -> deref (onGitEvent event entry st) r = Some p) /\
  (exists fired,
      trace (onGitEvent event entry st) = (trace st ++ fired)%list /\
      forall r, ~ In (Fire r DidChangeResources) fired) /\
  stagedChanges (onGitEvent event entry st) = stagedChanges st /\
  mergeChanges (onGitEvent event entry st) = mergeChanges st.
Proof.
  intros I B R.
  assert (H : iconsResolve (filter (fun c => negb (isConflicted c && staged c))
                                   (changes (event_status event))) = false).
  { destruct (iconsResolve _) eqn:E; [|reflexivity].
    unfold iconsResolve in E. rewrite forallb_forall in E.
    specialize (E c). rewrite R in E. symmetry. apply E, filter_In. now rewrite B. }
  assert (G : forall provider st0,
             exists e st1,
               getGroups (Some (event_status event)) provider st0 = (Rejected e, st1) /\
               sameButCounter st0 st1).
  { intros. now apply getGroups_rejected. }
  assert (Q : quiet st (onGitEvent event entry st)).
  { unfold onGitEvent.
    eapply quiet_trans; [apply checkNewOrRemovedRepositories_quiet|].
    set (st1 := checkNewOrRemovedRepositories st).
    destruct (find _ (scmProviders st1)) as [provider|];
      [|apply updateSyncStatusBarEntry_quiet].
    apply (quiet_trans _ (updateSyncStatusBarEntry entry (Some (localUri (source event))) st1));
      [apply updateSyncStatusBarEntry_quiet|].
    destruct (G provider (updateSyncStatusBarEntry entry
                            (Some (localUri (source event))) st1)) as (e & st3 & -> & S).
    now apply sameButCounter_quiet. }
  destruct Q as (D & S & M & F).
  split; [|split; [exact D | split; [exact F | split; assumption]]].
  intros provider st0. destruct (G provider st0) as (e & st1 & E & Q).
  exists e, st1. split; [exact E|].
  apply sameButCounter_quiet in Q. destruct Q as (_ & S' & M' & _). now split.
Qed.

Lemma store_update_lookup (l : list ScmProviderImpl) :
  forall r p q, nth_error l r = Some p -> nth_error (store_update r q l) r = Some q.
Proof.
  induction l as [|x l IH]; intros [|r] p q E; simpl in *; try discriminate; eauto.
Qed.

(** A method call on a stored provider: the object is replaced by the
    one the method returns and what it fired is appended to the trace. *)
Lemma call_stored (r : ProviderRef)
      (method : ScmProviderImpl -> ScmProviderImpl * list Notification)
      (st : GitViewContribution) (p : ScmProviderImpl) :
  deref st r = Some p ->
  deref (call r method st) r = Some (fst (method p)) /\
  trace (call r method st) = (trace st ++ map (Fire r) (snd (method p)))%list.
Proof.
  intros E. unfold call. rewrite E. destruct (method p) as [p' fired]. cbn.
  split; [|reflexivity]. unfold deref in *. cbn. eapply store_update_lookup; eauto.
Qed.

(** C7, as the code has it.  Assigning [groups] replaces the stored groups,
    whatever they were, keeps the other fields and fires nothing;
    [fireChangeResources] fires a resources-changed notification without
    payload and [fireChangeStatusBarCommands] a commands-changed notification
    carrying the list, neither changing the object; no command list is
    stored, [statusBarCommands] is always undefined.  It is the callback of
    the handler that assigns the groups and then fires both notifications,
    so a listener that reads [groups] when notified finds the new groups. *)
Theorem provider_hub_transitions (p : ScmProviderImpl)
        (groups : list ScmResourceGroup) (commands : list ScmCommand) :
  (get_groups (fst (set_groups groups p)) = Some groups /\
   get_rootUri (fst (set_groups groups p)) = get_rootUri p /\
   _id (fst (set_groups groups p)) = _id p /\
   snd (set_groups groups p) = []) /\
  fireChangeResources p = (p, [DidChangeResources]) /\
  fireChangeStatusBarCommands commands p = (p, [DidChangeStatusBarCommands commands]) /\
  get_statusBarCommands (fst (fireChangeStatusBarCommands commands p)) = None /\
  (forall r st wds,
      deref st r = Some p ->
      deref (publishGroups r wds groups st) r = Some (fst (set_groups groups p)) /\
      trace (publishGroups r wds groups st) =
        (trace st ++ [Fire r (DidChangeStatusBarCommands [checkoutCommand wds]);
                      Fire r DidChangeResources])%list).
Proof.
  repeat split. all: unfold publishGroups.
  all: destruct (call_stored r (set_groups groups) st p H) as [D1 T1].
  all: destruct (call_stored r (fireChangeStatusBarCommands [checkoutCommand wds]) _ _ D1)
    as [D2 T2].
  all: destruct (call_stored r fireChangeResources _ _ D2) as [D3 T3].
  - exact D3.
  - rewrite T3, T2, T1. cbn. now rewrite app_nil_r, <- app_assoc.
Qed.

(** C9.  When the collection of the amend message fails in the handler of
    the amend command, the handler swallows the failure if it is an [Error]
    whose message is "User abort." and rejects with the same value
    otherwise; in both cases nothing is committed: the state, its trace
    included, is untouched. *)
Theorem amend_swallows_user_abort_only
        (doCommit : Repository -> string -> string -> option Value)
        (repository : Repository) (e : Value) (st : GitViewContribution) :
  COMMIT_AMEND_execute (Some doCommit) (Some repository) (Rejected e) st =
    (if isUserAbort e then Fulfilled tt else Rejected e, st) /\
  (isUserAbort e = true <-> e = ErrorObject "User abort.").
Proof.
  split.
  - unfold COMMIT_AMEND_execute, isUserAbort.
    destruct e as [m|m]; cbn; [|reflexivity].
    destruct (m =? "User abort."); reflexivity.
  - unfold isUserAbort. destruct e as [m|m]; cbn.
    + rewrite String.eqb_eq. split; congruence.
    + split; discriminate.
Qed.

End HandlerProperties.

(** ** The diff-URI resolver *)

Section ResolverProperties.
Context `{UA : UriApi} `{SA : ScmServiceApi} `{GC : !GitCollaborators} `{LC : LocaleCollation}.

(** C1.  [getUriToOpen] is the seven-case decision table of the specification
    over the status being [New], the [staged] flag, and membership of the
    change's path in the cached staged set and in the cached merge set, read
    in the specification's priority order.  The label of a diff is the
    display name of the path followed by the case's name in parentheses.
    The cached sets are the staged and the merge bucket of the last
    [getGroups] that was fulfilled. *)
Theorem getUriToOpen_decision_table (st : GitViewContribution) (change : GitFileChange) :
  getUriToOpen st change =
    spec_uriTable (GitFileStatus_eqb (status change) New)
                  (staged change)
                  (inSet (stagedChanges st) (uri change))
                  (inSet (mergeChanges st) (uri change))
                  (uri change) /\
  (forall wds provider st0 groups st1,
      getGroups wds provider st0 = (Fulfilled groups, st1) ->
      stagedChanges st1 = fst (fst (classify wds)) /\
      mergeChanges st1 = snd (classify wds)).
Proof.
  split.
  - unfold getUriToOpen, spec_uriTable, diffOf, headUri, repoUri, workingUri.
    rewrite !findByUri_inSet.
    destruct (GitFileStatus_eqb (status change) New), (staged change),
      (inSet (stagedChanges st) (uri change)), (inSet (mergeChanges st) (uri change));
      reflexivity.
  - intros wds provider st0 groups st1 E.
    destruct (iconsResolve (filter (fun c => negb (isConflicted c && staged c))
                                   (changesOf wds))) eqn:R.
    + destruct (getGroups_fulfilled wds provider st0 R) as (gs & st' & E' & _ & S & M).
      rewrite E in E'. injection E' as -> ->. now split.
    + destruct (getGroups_rejected wds provider st0 R) as (e & st' & E' & _).
      rewrite E in E'. discriminate.
Qed.

End ResolverProperties.

(** ** The branch name, commits and the sign-off trailer *)

Lemma substring_prefix_length (n : nat) (s : string) :
  (String.length (String.substring 0 n s) <= n)%nat /\
  String.prefix (String.substring 0 n s) s = true.
Proof.
  revert s. induction n as [|n IH]; intros [|a s]; simpl; try (split; [lia | reflexivity]).
  destruct (IH s) as [L P]. split; [lia|].
  destruct (ascii_dec a a) as [_|N]; [exact P | congruence].
Qed.

(** X1.  The name shown for the branch is never empty: it is the branch
    when there is a non-empty one; otherwise the first eight characters of
    the current head (a prefix of it, at most eight characters long) when
    that is not empty; otherwise "NO-HEAD".  An empty branch or head counts
    as a missing one. *)
Theorem branchName_never_empty (s : WorkingDirectoryStatus) :
  branchName s <> "" /\
  (forall b, branch s = Some b -> b <> "" -> branchName s = b) /\
  (forall h, truthy_string (branch s) = false -> currentHead s = Some h -> h <> "" ->
             branchName s = String.substring 0 8 h /\
             (String.length (branchName s) <= 8)%nat /\
             String.prefix (branchName s) h = true) /\
  (truthy_string (branch s) = false -> truthy_string (currentHead s) = false ->
   branchName s = "NO-HEAD").
Proof.
  unfold branchName. destruct s as [b h cs]. cbn [branch currentHead].
  split; [|split; [|split]].
  - destruct b as [[|a b]|], h as [[|c h]|]; cbn; discriminate.
  - intros b' E N. subst b. destruct b' as [|a b']; [congruence | reflexivity].
  - intros h' B E N. subst h. destruct h' as [|c h']; [congruence|].
    destruct b as [[|a b]|]; cbn in B; try discriminate;
      (split; [reflexivity | apply (substring_prefix_length 8)]).
  - intros B H. destruct b as [[|a b]|], h as [[|c h]|]; cbn in *; congruence.
Qed.

Section CommitProperties.
Context `{GB : GitBackend}.


Lemma substring_0_app (c t : string) :
  String.substring 0 (String.length c) (c ++ t) = c.
Proof.
  induction c as [|a c IH]; simpl.
  - destruct t; reflexivity.
  - now rewrite IH.
Qed.

Lemma substring_split (a : nat) :
  forall s, (a <= String.length s)%nat ->
            s = String.substring 0 a s ++ String.substring a (String.length s - a) s.
Proof.
  induction a as [|a IH]; intros s L.
  - rewrite Nat.sub_0_r, substring_whole. destruct s; reflexivity.
  - destruct s as [|x s]; simpl in *; [lia|]. f_equal. apply IH. lia.
Qed.

Lemma endsWith_app (c t : string) : endsWith (c ++ t) t = true.
Proof.
  unfold endsWith. rewrite string_length_app.
  replace (String.length t <=? String.length c + String.length t)%nat with true
    by (symmetry; apply Nat.leb_le; lia).
  replace (String.length c + String.length t - String.length t)%nat with (String.length c) by lia.
  rewrite substring_after_prefix, substring_whole. apply String.eqb_refl.
Qed.

Lemma endsWith_split (c t : string) :
  endsWith c t = true ->
  c = substr0 c (Z.of_nat (String.length c) - Z.of_nat (String.length t)) ++ t.
Proof.
  unfold endsWith, substr0.
  destruct (String.length t <=? String.length c)%nat eqn:L; [|discriminate].
  apply Nat.leb_le in L. intros E. apply String.eqb_eq in E.
  replace (Z.to_nat (Z.of_nat (String.length c) - Z.of_nat (String.length t)))
    with (String.length c - String.length t)%nat by lia.
  assert (L' : (String.length c - String.length t <= String.length c)%nat) by lia.
  pose proof (substring_split _ c L') as S.
  replace (String.length c - (String.length c - String.length t))%nat
    with (String.length t) in S by lia.
  now rewrite E in S.
Qed.

(** X3.  [doSignOff] toggles the sign-off trailer of the commit message.
    On a message that does not end with the trailer it appends it, and a
    second call gives the message back unchanged; on a message that ends
    with the trailer it removes exactly that trailer. *)
Theorem doSignOff_round_trip (repository : Repository) (content username email : string) :
  getUserConfig repository = Fulfilled (username, email) ->
  (endsWith content (signOffTrailer username email) = false ->
   doSignOff (Some repository) (Some content) =
     Fulfilled (Some (content ++ signOffTrailer username email)) /\
   doSignOff (Some repository) (Some (content ++ signOffTrailer username email)) =
     Fulfilled (Some content)) /\
  (endsWith content (signOffTrailer username email) = true ->
   exists body,
     content = body ++ signOffTrailer username email /\
     doSignOff (Some repository) (Some content) = Fulfilled (Some body)).
Proof.
  intros U. unfold doSignOff. rewrite U. split.
  - intros E. rewrite E, endsWith_app. split; [reflexivity|].
    unfold substr0. rewrite string_length_app.
    replace (Z.to_nat _) with (String.length content) by lia.
    now rewrite substring_0_app.
  - intros E. rewrite E. eexists. split; [|reflexivity].
    now apply endsWith_split.
Qed.

End CommitProperties.

(** ** The items of the SCM widget *)

Lemma string_app_assoc (a b c : string) : (a ++ b) ++ c = a ++ b ++ c.
Proof. induction a as [|x a IH]; simpl; [reflexivity | now rewrite IH]. Qed.



(** [s.substring(s.lastIndexOf('/') + 1)] is what follows the last slash. *)
Lemma substring_after_last_slash (p q : string) :
  ~ In "/"%char (list_ascii_of_string q) ->
  substring_from (p ++ "/" ++ q) (lastIndexOf (p ++ "/" ++ q) "/"%char + 1) = q.
Proof.
  intros N. unfold lastIndexOf, substring_from.
  change (p ++ "/" ++ q) with (p ++ String "/"%char q).
  rewrite lastIndexOf_from_last by exact N.
  change (p ++ String "/"%char q) with (p ++ "/" ++ q).
  rewrite <- string_app_assoc.
  replace (Z.to_nat _) with (String.length (p ++ "/")) by (rewrite string_length_app; simpl; lia).
  rewrite substring_after_prefix, string_length_app.
  replace (String.length (p ++ "/") + String.length q - String.length (p ++ "/"))%nat
    with (String.length q) by lia.
  apply substring_whole.
Qed.

Section WidgetProperties.
Context `{UA : UriApi} `{SA : ScmServiceApi}.
Variable URI_path : URI -> string.


End WidgetProperties.

(** ** More on the repository tracker *)

Section TrackerProperties.
Context `{UA : UriApi} `{SA : ScmServiceApi} `{GC : !GitCollaborators} `{LC : LocaleCollation}.

Lemma unobserved_every (st : GitViewContribution) (repo : Repository) :
  every (fun dirtyRepo => negb (localUri dirtyRepo =? localUri repo)) (dirtyRepositories st) = true
  <-> unobserved st repo.
Proof.
  unfold every, unobserved. rewrite forallb_forall.
  split; intros H d I; specialize (H d I).
  - intros E. now rewrite E, String.eqb_refl in H.
  - apply negb_true_iff, String.eqb_neq. exact H.
Qed.

Lemma absent_every (st : GitViewContribution) (u : string) :
  every (fun repo => negb (localUri repo =? u)) (allRepositories st) = true <-> absent st u.
Proof.
  unfold every, absent. rewrite forallb_forall.
  split; intros H d I; specialize (H d I).
  - intros E. now rewrite E, String.eqb_refl in H.
  - apply negb_true_iff, String.eqb_neq. exact H.
Qed.

Lemma rootUri_is_spec (st : GitViewContribution) (u : string) (r : ProviderRef) :
  rootUri_is st u r = true <-> exists p, deref st r = Some p /\ _rootUri p = Some u.
Proof.
  unfold rootUri_is, get_rootUri. destruct (deref st r) as [p|].
  - destruct (_rootUri p) as [v|] eqn:R.
    + rewrite String.eqb_eq. split.
      * intros ->. exists p. now split.
      * intros (q & E & E'). injection E as <-. congruence.
    + split; [discriminate|]. intros (q & E & E'). injection E as <-. congruence.
  - split; [discriminate|]. intros (q & E & _). discriminate.
Qed.

Lemma rootUri_is_store (st st' : GitViewContribution) (u : string) (r : ProviderRef) :
  store st = store st' -> rootUri_is st u r = rootUri_is st' u r.
Proof. unfold rootUri_is, deref. now intros ->. Qed.

(** The whole effect of one run of the tracker. *)
Lemma tracker_shape (st : GitViewContribution) :
  exists (created : list ScmProviderImpl) (disposed : list ScmRepository),
    store (checkNewOrRemovedRepositories st) = (store st ++ created)%list /\
    trace (checkNewOrRemovedRepositories st) =
      (trace st ++ map RegisterScmProvider (seq (List.length (store st)) (List.length created))
                ++ map DisposeScmRepository disposed)%list /\
    match find (fun repo =>
                  every (fun dirtyRepo => negb (localUri dirtyRepo =? localUri repo))
                        (dirtyRepositories st))
               (allRepositories st) with
    | Some a =>
        created =
          [{| _id := "scm" ++ Number_toString (ScmProviderImpl_ID st);
              _contextValue := "Git";
              _label := substring_from (localUri a) (lastIndexOf (localUri a) "/"%char + 1);
              _rootUri := Some (localUri a);
              _groups := None;
              _count := None |}] /\
        ScmProviderImpl_ID (checkNewOrRemovedRepositories st) =
          Number_succ (ScmProviderImpl_ID st)
    | None =>
        created = [] /\
        ScmProviderImpl_ID (checkNewOrRemovedRepositories st) = ScmProviderImpl_ID st
    end /\
    match disposed with
    | [] =>
        scmProviders (checkNewOrRemovedRepositories st) =
          (scmProviders st ++ seq (List.length (store st)) (List.length created))%list
    | sr :: rest =>
        rest = [] /\
        scmProviders (checkNewOrRemovedRepositories st) =
          (let tracked :=
             (scmProviders st ++ seq (List.length (store st)) (List.length created))%list in
           if (indexOf Nat.eqb tracked (repo_provider sr) >? -1)%Z
           then splice1 (Z.to_nat (indexOf Nat.eqb tracked (repo_provider sr))) tracked
           else tracked) /\
        exists r, In r (dirtyRepositories st) /\
                  absent st (localUri r) /\
                  rootUri_is (checkNewOrRemovedRepositories st) (localUri r) (repo_provider sr)
                    = true
    end /\
    SCM_GROUP_ID (checkNewOrRemovedRepositories st) = SCM_GROUP_ID st /\
    stagedChanges (checkNewOrRemovedRepositories st) = stagedChanges st /\
    mergeChanges (checkNewOrRemovedRepositories st) = mergeChanges st /\
    allRepositories (checkNewOrRemovedRepositories st) = allRepositories st /\
    dirtyRepositories (checkNewOrRemovedRepositories st) = allRepositories st.
Proof.
  unfold checkNewOrRemovedRepositories.
  destruct (find _ (allRepositories st)) as [a|].
  - unfold registerScmProvider, ScmProviderImpl_new.
    destruct (ScmService_registerScmProvider _ _) as [repo service]. cbn [snd].
    match goal with |- context [emit ?e ?x] => set (st1 := emit e x) end.
    destruct (find _ (dirtyRepositories st1)) as [r|] eqn:Fr.
    + destruct (find _ (ScmService_repositories (scmService st1))) as [sr|] eqn:Fs.
      * apply find_some in Fr. destruct Fr as [Ir Ar].
        apply find_some in Fs. destruct Fs as [_ Rs].
        eexists (_ :: nil), (sr :: nil).
        destruct (_ >? _)%Z eqn:Ix; cbn; rewrite <- ?app_assoc;
          (repeat split; try reflexivity);
          try (cbn in Ix; rewrite Ix; reflexivity);
          (exists r; split; [exact Ir | split; [now apply (absent_every st) | exact Rs]]).
      * eexists (_ :: nil), nil. cbn. repeat split; reflexivity.
    + eexists (_ :: nil), nil. cbn. repeat split; reflexivity.
  - destruct (find _ (dirtyRepositories st)) as [r|] eqn:Fr.
    + destruct (find _ (ScmService_repositories (scmService st))) as [sr|] eqn:Fs.
      * apply find_some in Fr. destruct Fr as [Ir Ar].
        apply find_some in Fs. destruct Fs as [_ Rs].
        exists [], [sr].
        destruct (_ >? _)%Z eqn:Ix; cbn; rewrite ?app_nil_r;
          (repeat split; try reflexivity);
          try (unfold indexOf in *; cbn in Ix |- *; rewrite ?app_nil_r in *;
               rewrite Ix; reflexivity);
          (exists r; split; [exact Ir | split; [now apply (absent_every st) | exact Rs]]).
      * exists [], []. cbn. rewrite ?app_nil_r. repeat split; reflexivity.
    + exists [], []. cbn. rewrite ?app_nil_r. repeat split; reflexivity.
Qed.

Lemma indexOf_from_firstIndex (x : ProviderRef) (l : list ProviderRef) :
  forall i,
    indexOf_from Nat.eqb x l i =
    match firstIndex x l with Some k => (i + Z.of_nat k)%Z | None => (-1)%Z end.
Proof.
  induction l as [|y l IH]; intros i; simpl; [reflexivity|].
  destruct (Nat.eqb y x); [simpl; lia|].
  rewrite IH. destruct (firstIndex x l); simpl; lia.
Qed.

(** What [indexOf] followed by the guarded [splice] does to a list. *)
Lemma guarded_splice (x : ProviderRef) (l : list ProviderRef) :
  (if (indexOf Nat.eqb l x >? -1)%Z then splice1 (Z.to_nat (indexOf Nat.eqb l x)) l else l) =
  match firstIndex x l with Some k => splice1 k l | None => l end.
Proof.
  unfold indexOf. rewrite indexOf_from_firstIndex.
  destruct (firstIndex x l) as [k|]; [|reflexivity].
  replace (0 + Z.of_nat k >? -1)%Z with true by (symmetry; apply Z.gtb_lt; lia).
  now replace (Z.to_nat (0 + Z.of_nat k)) with k by lia.
Qed.

Lemma firstIndex_None (x : ProviderRef) (l : list ProviderRef) :
  firstIndex x l = None -> ~ In x l.
Proof.
  induction l as [|y l IH]; simpl; [tauto|].
  destruct (Nat.eqb_spec y x) as [->|D]; [discriminate|].
  destruct (firstIndex x l); [discriminate|]. intros _ [E|I]; [congruence | now apply IH].
Qed.

Lemma splice1_subset (l : list ProviderRef) :
  forall k y, In y (splice1 k l) -> In y l.
Proof.
  induction l as [|z l IH]; intros [|k] y; simpl; try tauto.
  intros [E|I]; [now left | right; eauto].
Qed.

Lemma splice1_first_keeps (x : ProviderRef) (l : list ProviderRef) :
  forall k y, firstIndex x l = Some k -> y <> x -> In y l -> In y (splice1 k l).
Proof.
  induction l as [|z l IH]; intros k y; simpl; [discriminate|].
  destruct (Nat.eqb_spec z x) as [->|D].
  - intros [= <-] N [E|I]; [congruence | exact I].
  - destruct (firstIndex x l) as [j|]; [|discriminate].
    intros [= <-] N [E|I]; [now left | right; eauto].
Qed.

Lemma splice1_first_drops (x : ProviderRef) (l : list ProviderRef) :
  forall k, firstIndex x l = Some k -> NoDup l ->
            ~ In x (splice1 k l) /\ NoDup (splice1 k l).
Proof.
  induction l as [|z l IH]; intros k; simpl; [discriminate|].
  destruct (Nat.eqb_spec z x) as [->|D].
  - intros [= <-] N. inversion N; subst. now split.
  - destruct (firstIndex x l) as [j|] eqn:F; [|discriminate].
    intros [= <-] N. inversion N as [|? ? Nz Nl]; subst.
    destruct (IH j eq_refl Nl) as [A B]. split.
    + intros [E|I]; [congruence | now apply A].
    + constructor; [|exact B]. intros I. apply Nz. eapply splice1_subset; eauto.
Qed.

(** The tracked references after a run, against those before together with
    the newly created one. *)
Lemma tracked_after (st : GitViewContribution) :
  exists (created : list ScmProviderImpl) (disposed : list ScmRepository),
    store (checkNewOrRemovedRepositories st) = (store st ++ created)%list /\
    match find (fun repo =>
                  every (fun dirtyRepo => negb (localUri dirtyRepo =? localUri repo))
                        (dirtyRepositories st))
               (allRepositories st) with
    | Some a =>
        created =
          [{| _id := "scm" ++ Number_toString (ScmProviderImpl_ID st);
              _contextValue := "Git";
              _label := substring_from (localUri a) (lastIndexOf (localUri a) "/"%char + 1);
              _rootUri := Some (localUri a);
              _groups := None;
              _count := None |}] /\
        ScmProviderImpl_ID (checkNewOrRemovedRepositories st) =
          Number_succ (ScmProviderImpl_ID st)
    | None =>
        created = [] /\
        ScmProviderImpl_ID (checkNewOrRemovedRepositories st) = ScmProviderImpl_ID st
    end /\
    trace (checkNewOrRemovedRepositories st) =
      (trace st ++ map RegisterScmProvider (seq (List.length (store st)) (List.length created))
                ++ map DisposeScmRepository disposed)%list /\
    (forall y, In y (scmProviders (checkNewOrRemovedRepositories st)) ->
               In y (scmProviders st ++ seq (List.length (store st)) (List.length created))) /\
    (forall y, In y (scmProviders st ++ seq (List.length (store st)) (List.length created)) ->
               (forall sr, In sr disposed -> repo_provider sr <> y) ->
               In y (scmProviders (checkNewOrRemovedRepositories st))) /\
    (NoDup (scmProviders st ++ seq (List.length (store st)) (List.length created)) ->
     NoDup (scmProviders (checkNewOrRemovedRepositories st)) /\
     forall sr, In sr disposed ->
                ~ In (repo_provider sr) (scmProviders (checkNewOrRemovedRepositories st))) /\
    (forall new, trace (checkNewOrRemovedRepositories st) = (trace st ++ new)%list ->
                 forall sr, In (DisposeScmRepository sr) new <-> In sr disposed) /\
    (forall sr, In sr disposed ->
                exists r, In r (dirtyRepositories st) /\ absent st (localUri r) /\
                          rootUri_is (checkNewOrRemovedRepositories st) (localUri r)
                                     (repo_provider sr) = true).
Proof.
  destruct (tracker_shape st) as (created & disposed & S & T & A & D & _).
  exists created, disposed. split; [exact S|]. split; [exact A|]. split; [exact T|].
  set (tracked := (scmProviders st ++ seq (List.length (store st)) (List.length created))%list)
    in *.
  assert (Tr : forall new, trace (checkNewOrRemovedRepositories st) = (trace st ++ new)%list ->
                           forall sr, In (DisposeScmRepository sr) new <-> In sr disposed).
  { intros new E sr. rewrite T in E. apply app_inv_head in E. subst new.
    rewrite in_app_iff, !in_map_iff. split.
    - intros [(x & E & _) | (x & E & I)]; [discriminate | congruence].
    - intros I. right. eauto. }
  destruct disposed as [|sr rest].
  - rewrite D. split; [tauto|]. split; [tauto|].
    split; [intros N; split; [exact N | intros x []]|].
    split; [exact Tr | intros x []].
  - destruct D as (-> & D & R). cbv zeta in D. fold tracked in D.
    rewrite guarded_splice in D. rewrite D.
    destruct (firstIndex (repo_provider sr) tracked) as [k|] eqn:F.
    + split; [intros y; apply splice1_subset|]. split; [|split; [|split]].
      * intros y I N. eapply splice1_first_keeps; eauto.
        intros E. apply (N sr); [now left | congruence].
      * intros N. destruct (splice1_first_drops _ _ _ F N) as [X Y].
        split; [exact Y|]. intros sr' [<-|[]]. exact X.
      * exact Tr.
      * intros sr' [<-|[]]. exact R.
    + split; [tauto|]. split; [tauto|]. split; [|split].
      * intros N. split; [exact N|]. intros sr' [<-|[]]. now apply firstIndex_None.
      * exact Tr.
      * intros sr' [<-|[]]. exact R.
Qed.

Lemma find_first {A} (f : A -> bool) (l : list A) (a : A) :
  find f l = Some a ->
  exists before after,
    l = (before ++ a :: after)%list /\ f a = true /\ forall x, In x before -> f x = false.
Proof.
  unfold find. induction l as [|y l IH]; simpl; [discriminate|].
  destruct (f y) eqn:E.
  - intros [= ->]. exists [], l. repeat split; trivial. intros x [].
  - intros F. destruct (IH F) as (before & after & -> & Fa & Fb).
    exists (y :: before), after. repeat split; trivial.
    intros x [<-|I]; auto.
Qed.

Lemma filter_registrations (refs : list ProviderRef) (disposed : list ScmRepository) :
  filter isRegistration
         (map RegisterScmProvider refs ++ map DisposeScmRepository disposed)%list =
  map RegisterScmProvider refs.
Proof.
  rewrite filter_app.
  replace (filter isRegistration (map DisposeScmRepository disposed)) with (@nil Effect)
    by (induction disposed; simpl; auto).
  rewrite app_nil_r. induction refs; simpl; congruence.
Qed.

Lemma deref_appended (st st' : GitViewContribution) (created : list ScmProviderImpl)
      (r : ProviderRef) (p : ScmProviderImpl) :
  store st' = (store st ++ created)%list ->
  deref st r = Some p -> deref st' r = Some p.
Proof.
  unfold deref. intros -> E. rewrite nth_error_app1; [exact E|].
  apply nth_error_Some. congruence.
Qed.

(** X5.  When every repository of the authoritative list has the URI of an
    observed one, a run of the tracker creates no provider.  Otherwise it
    creates exactly one, for the first repository that has no observed URI:
    a "Git" provider with that URI as root, the part of the URI after its
    last slash as label, the next identifier and no groups yet; the provider
    is tracked after the run. *)
Theorem tracker_registers_first_unobserved (st : GitViewContribution) :
  ((forall repo, In repo (allRepositories st) -> ~ unobserved st repo) ->
   store (checkNewOrRemovedRepositories st) = store st /\
   ScmProviderImpl_ID (checkNewOrRemovedRepositories st) = ScmProviderImpl_ID st /\
   exists new,
     trace (checkNewOrRemovedRepositories st) = (trace st ++ new)%list /\
     filter isRegistration new = []) /\
  (forall repo,
      In repo (allRepositories st) -> unobserved st repo ->
      exists a before after p,
        allRepositories st = (before ++ a :: after)%list /\
        unobserved st a /\
        (forall x, In x before -> ~ unobserved st x) /\
        store (checkNewOrRemovedRepositories st) = (store st ++ [p])%list /\
        _rootUri p = Some (localUri a) /\
        _contextValue p = "Git" /\
        _groups p = None /\
        _id p = "scm" ++ Number_toString (ScmProviderImpl_ID st) /\
        (forall base name,
            localUri a = base ++ "/" ++ name ->
            ~ In "/"%char (list_ascii_of_string name) ->
            _label p = name) /\
        In (List.length (store st)) (scmProviders (checkNewOrRemovedRepositories st)) /\
        exists new,
          trace (checkNewOrRemovedRepositories st) = (trace st ++ new)%list /\
          filter isRegistration new = [RegisterScmProvider (List.length (store st))]).
Proof.
  destruct (tracked_after st) as (created & disposed & S & A & T & _ & K & _ & _ & R).
  split.
  - intros O.
    destruct (find _ (allRepositories st)) as [a|] eqn:F.
    + apply find_some in F. destruct F as [I U].
      apply unobserved_every in U. now destruct (O a I).
    + destruct A as [-> E]. rewrite app_nil_r in S.
      repeat split; trivial. eexists. split; [exact T|].
      now rewrite filter_registrations.
  - intros repo I U.
    destruct (find _ (allRepositories st)) as [a|] eqn:F.
    2:{ apply unobserved_every in U. unfold find in F.
        pose proof (find_none _ _ F repo I) as C. cbv beta in C.
        rewrite U in C. discriminate. }
    pose proof (find_some _ _ F) as [Ia Ua].
    destruct (find_first _ _ _ F) as (before & after & E & _ & B).
    destruct A as [-> _].
    eexists a, before, after, _. split; [exact E|].
    split; [now apply unobserved_every|].
    split. { intros x Ix Ux. apply unobserved_every in Ux. rewrite (B x Ix) in Ux. discriminate. }
    split; [exact S|]. cbn [_rootUri _contextValue _groups _id _label].
    repeat (split; [reflexivity|]).
    split. { intros base name -> N. now apply substring_after_last_slash. }
    split.
    + apply K; [apply in_or_app; right; now left|].
      intros sr Isr Eq. destruct (R sr Isr) as (r & _ & Ab & Ru).
      apply rootUri_is_spec in Ru. destruct Ru as (p & Dp & Rp).
      unfold deref in Dp. rewrite S, Eq, nth_error_app2, Nat.sub_diag in Dp by lia.
      injection Dp as <-. cbn in Rp. injection Rp as Rp.
      exact (Ab a Ia Rp).
    + eexists. split; [exact T|]. now rewrite filter_registrations.
Qed.

(** X6.  A run of the tracker never stops tracking a provider whose root
    URI belongs to a repository of the authoritative list.  The repository
    it disposes, if any, is one whose provider has the URI of an observed
    repository that is absent from the authoritative list, and (the tracked
    references being distinct and in the store) that provider is not
    tracked after the run. *)
Theorem tracker_keeps_present_repositories (st : GitViewContribution) :
  (forall r u,
      In r (scmProviders st) ->
      rootUri_is st u r = true ->
      (exists a, In a (allRepositories st) /\ localUri a = u) ->
      In r (scmProviders (checkNewOrRemovedRepositories st))) /\
  (forall new sr,
      trace (checkNewOrRemovedRepositories st) = (trace st ++ new)%list ->
      In (DisposeScmRepository sr) new ->
      (exists r, In r (dirtyRepositories st) /\
                 absent st (localUri r) /\
                 rootUri_is (checkNewOrRemovedRepositories st) (localUri r) (repo_provider sr)
                   = true) /\
      (wellFormed st ->
       ~ In (repo_provider sr) (scmProviders (checkNewOrRemovedRepositories st)))).
Proof.
  destruct (tracked_after st) as (created & disposed & S & A & T & _ & K & N & Tr & R).
  split.
  - intros r u I Ru (a & Ia & Ea). apply K; [apply in_or_app; now left|].
    intros sr Isr Eq. destruct (R sr Isr) as (r0 & _ & Ab & Ru0).
    apply rootUri_is_spec in Ru, Ru0.
    destruct Ru as (p & Dp & Rp), Ru0 as (q & Dq & Rq).
    rewrite Eq, (deref_appended st _ created r p S Dp) in Dq. injection Dq as <-.
    apply (Ab a Ia). congruence.
  - intros new sr E I. apply (Tr new E) in I. split; [now apply R|].
    intros (Dg & Nd & _ & _). apply N; [|exact I].
    assert (L : (List.length created <= 1)%nat).
    { destruct (find _ _); destruct A as [-> _]; simpl; lia. }
    destruct created as [|p [|q created]]; simpl in *; try lia.
    + now rewrite app_nil_r.
    + apply NoDup_app; [exact Nd | repeat constructor; simpl; tauto |].
      intros x Ix [<-|[]]. rewrite Forall_forall in Dg. specialize (Dg _ Ix). lia.
Qed.

End TrackerProperties.

(** ** More on the handler of git events *)

Section EventProperties.
Context `{UA : UriApi} `{SA : ScmServiceApi} `{GC : !GitCollaborators} `{LC : LocaleCollation}.
Variable URI_path : URI -> string.

Lemma sameTracking_refl (st : GitViewContribution) : sameTracking st st.
Proof. repeat split. Qed.

Lemma sameTracking_trans (a b c : GitViewContribution) :
  sameTracking a b -> sameTracking b c -> sameTracking a c.
Proof.
  intros (A1 & A2 & A3 & A4 & A5 & A6) (B1 & B2 & B3 & B4 & B5 & B6).
  repeat split; congruence.
Qed.

Lemma store_update_twice (l : list ScmProviderImpl) :
  forall r p q, store_update r q (store_update r p l) = store_update r q l.
Proof.
  induction l as [|x l IH]; intros [|r] p q; simpl; try reflexivity. now rewrite IH.
Qed.

Lemma store_update_map {B} (f : ScmProviderImpl -> B) (l : list ScmProviderImpl) :
  forall r p q, nth_error l r = Some p -> f q = f p ->
                map f (store_update r q l) = map f l.
Proof.
  induction l as [|x l IH]; intros [|r] p q E F; simpl in *; try discriminate.
  - injection E as ->. now rewrite F.
  - f_equal. eauto.
Qed.

(** The fields a method call on a stored provider touches. *)
Lemma call_fields (r : ProviderRef)
      (method : ScmProviderImpl -> ScmProviderImpl * list Notification)
      (st : GitViewContribution) (p : ScmProviderImpl) :
  deref st r = Some p ->
  store (call r method st) = store_update r (fst (method p)) (store st) /\
  trace (call r method st) = (trace st ++ map (Fire r) (snd (method p)))%list /\
  SCM_GROUP_ID (call r method st) = SCM_GROUP_ID st /\
  stagedChanges (call r method st) = stagedChanges st /\
  mergeChanges (call r method st) = mergeChanges st /\
  scmProviders (call r method st) = scmProviders st /\
  ScmProviderImpl_ID (call r method st) = ScmProviderImpl_ID st /\
  dirtyRepositories (call r method st) = dirtyRepositories st /\
  allRepositories (call r method st) = allRepositories st.
Proof.
  intros E. unfold call. rewrite E. destruct (method p) as [p' fired]. cbn.
  repeat split.
Qed.

(** What the callback of the handler changes: the groups of the provider,
    and the trace. *)
Lemma publishGroups_fields (r : ProviderRef) (wds : WorkingDirectoryStatus)
      (groups : list ScmResourceGroup) (st : GitViewContribution) (p : ScmProviderImpl) :
  deref st r = Some p ->
  store (publishGroups r wds groups st) = store_update r (fst (set_groups groups p)) (store st) /\
  trace (publishGroups r wds groups st) =
    (trace st ++ [Fire r (DidChangeStatusBarCommands [checkoutCommand wds]);
                  Fire r DidChangeResources])%list /\
  SCM_GROUP_ID (publishGroups r wds groups st) = SCM_GROUP_ID st /\
  stagedChanges (publishGroups r wds groups st) = stagedChanges st /\
  mergeChanges (publishGroups r wds groups st) = mergeChanges st /\
  scmProviders (publishGroups r wds groups st) = scmProviders st /\
  ScmProviderImpl_ID (publishGroups r wds groups st) = ScmProviderImpl_ID st /\
  dirtyRepositories (publishGroups r wds groups st) = dirtyRepositories st /\
  allRepositories (publishGroups r wds groups st) = allRepositories st.
Proof.
  intros D0. unfold publishGroups.
  set (p' := fst (set_groups groups p)).
  destruct (call_fields r (set_groups groups) st p D0)
    as (S1 & T1 & G1 & A1 & M1 & P1 & I1 & R1 & L1).
  assert (D1 : deref (call r (set_groups groups) st) r = Some p')
    by (apply call_stored; exact D0).
  destruct (call_fields r (fireChangeStatusBarCommands [checkoutCommand wds]) _ p' D1)
    as (S2 & T2 & G2 & A2 & M2 & P2 & I2 & R2 & L2).
  assert (D2 : deref (call r (fireChangeStatusBarCommands [checkoutCommand wds])
                           (call r (set_groups groups) st)) r = Some p')
    by (apply (call_stored r (fireChangeStatusBarCommands [checkoutCommand wds]) _ p' D1)).
  destruct (call_fields r fireChangeResources _ p' D2)
    as (S3 & T3 & G3 & A3 & M3 & P3 & I3 & R3 & L3).
  cbn [fireChangeResources fireChangeStatusBarCommands fst snd map] in *.
  repeat split; try congruence.
  - rewrite S3, S2, S1, !store_update_twice. reflexivity.
  - rewrite T3, T2, T1. cbn. now rewrite app_nil_r, <- app_assoc.
Qed.

Lemma emit_sameTracking (es : list Effect) (st : GitViewContribution) :
  sameTracking st (emit es st).
Proof. repeat split. Qed.

Lemma updateSyncStatusBarEntry_fields (entry : option StatusBarEntry)
      (repositoryUri : option string) (st : GitViewContribution) :
  store (updateSyncStatusBarEntry entry repositoryUri st) = store st /\
  SCM_GROUP_ID (updateSyncStatusBarEntry entry repositoryUri st) = SCM_GROUP_ID st /\
  stagedChanges (updateSyncStatusBarEntry entry repositoryUri st) = stagedChanges st /\
  mergeChanges (updateSyncStatusBarEntry entry repositoryUri st) = mergeChanges st /\
  sameTracking st (updateSyncStatusBarEntry entry repositoryUri st).
Proof.
  unfold updateSyncStatusBarEntry.
  destruct entry as [e|], repositoryUri as [u|]; try (repeat split; fail).
  destruct (truthy_string (Some u)); [|repeat split].
  destruct (find _ _) as [r|]; [|repeat split].
  unfold call. destruct (deref st r) as [p|] eqn:E; [|repeat split].
  cbn. unfold deref in E. rewrite (store_update_same _ _ _ E). repeat split.
Qed.

(** When the icons resolve, [getGroups] fulfils; it advances the group
    counter and stores the two caches, nothing else. *)
Lemma getGroups_fulfilled_state (wds : option WorkingDirectoryStatus)
      (provider : ProviderRef) (st : GitViewContribution) :
  iconsResolve (filter (fun c => negb (isConflicted c && staged c)) (changesOf wds)) = true ->
  exists groups n,
    getGroups wds provider st =
      (Fulfilled groups,
       with_changes (fst (fst (classify wds))) (snd (classify wds)) (with_SCM_GROUP_ID n st)) /\
    Forall2 (groupOf provider) groups (nonEmptyBuckets (classify wds)).
Proof.
  rewrite iconsResolve_buckets, !andb_true_iff. intros [[Hs Hu] Hm].
  unfold getGroups. rewrite classify_filters. cbv beta iota. unfold bind at 1.
  destruct (pushGroup_fulfilled [] "Staged changes" provider _ st Hs) as (g1 & st1 & -> & F1 & Q1).
  unfold bind at 1.
  destruct (pushGroup_fulfilled ([] ++ g1) "Changes" provider _ st1 Hu)
    as (g2 & st2 & -> & F2 & Q2).
  unfold bind at 1.
  destruct (pushGroup_fulfilled (([] ++ g1) ++ g2) "Merged Changes" provider _ st2 Hm)
    as (g3 & st3 & -> & F3 & Q3).
  exists ((([] ++ g1) ++ g2) ++ g3)%list, (SCM_GROUP_ID st3). split.
  - unfold sameButCounter in Q1, Q2, Q3. cbn [fst snd]. unfold bind, modify, ret.
    rewrite Q3, Q2, Q1. reflexivity.
  - cbn [app]. rewrite <- app_assoc. rewrite nonEmptyBuckets_app.
    repeat apply Forall2_app; assumption.
Qed.

(** Whatever its outcome, [getGroups] leaves the store, the trace and the
    tracking alone. *)
Lemma getGroups_fields (wds : option WorkingDirectoryStatus)
      (provider : ProviderRef) (st : GitViewContribution) :
  store (snd (getGroups wds provider st)) = store st /\
  trace (snd (getGroups wds provider st)) = trace st /\
  sameTracking st (snd (getGroups wds provider st)).
Proof.
  destruct (iconsResolve (filter (fun c => negb (isConflicted c && staged c))
                                 (changesOf wds))) eqn:R.
  - destruct (getGroups_fulfilled_state wds provider st R) as (gs & n & -> & _).
    repeat split.
  - destruct (getGroups_rejected wds provider st R) as (e & st' & -> & Q).
    unfold sameButCounter in Q. cbn [snd]. rewrite Q. repeat split.
Qed.

Lemma store_update_other (l : list ScmProviderImpl) :
  forall r r' q, r <> r' -> nth_error (store_update r q l) r' = nth_error l r'.
Proof.
  induction l as [|x l IH]; intros [|r] [|r'] q N; simpl; try reflexivity; try congruence.
  apply IH. congruence.
Qed.

Lemma find_none_of {A} (f : A -> bool) (l : list A) :
  (forall x, In x l -> f x = false) -> find f l = None.
Proof.
  unfold find. induction l as [|y l IH]; simpl; intros H; [reflexivity|].
  rewrite (H y (or_introl eq_refl)). apply IH. auto.
Qed.

(** After the run of the tracker, the handler leaves the tracking alone. *)
Lemma onGitEvent_sameTracking (event : GitStatusChangeEvent) (entry : option StatusBarEntry)
      (st : GitViewContribution) :
  sameTracking (checkNewOrRemovedRepositories st) (onGitEvent event entry st).
Proof.
  unfold onGitEvent. set (st1 := checkNewOrRemovedRepositories st).
  set (st2 := updateSyncStatusBarEntry entry (Some (localUri (source event))) st1).
  assert (T2 : sameTracking st1 st2) by apply updateSyncStatusBarEntry_fields.
  destruct (find _ (scmProviders st1)) as [provider|]; [|exact T2].
  destruct (getGroups_fields (Some (event_status event)) provider st2) as (S3 & _ & T3).
  destruct (getGroups (Some (event_status event)) provider st2) as [[groups|e] st3];
    cbn [snd] in *.
  2:{ eapply sameTracking_trans; eauto. }
  apply (sameTracking_trans _ st3); [eapply sameTracking_trans; eauto|].
  unfold publishGroups.
  assert (C : forall m s,
             (forall p, _id (fst (m p)) = _id p /\ _rootUri (fst (m p)) = _rootUri p) ->
             sameTracking s (call provider m s)).
  { intros m s P. destruct (deref s provider) as [p|] eqn:D.
    - destruct (call_fields provider m s p D) as (S & _ & _ & _ & _ & X1 & X2 & X3 & X4).
      destruct (P p) as [Pi Pr]. unfold deref in D.
      repeat split; trivial; rewrite S; eapply store_update_map; eauto.
    - unfold call. rewrite D. apply sameTracking_refl. }
  eapply sameTracking_trans; [|apply C; intros; split; reflexivity].
  eapply sameTracking_trans; [|apply C; intros; split; reflexivity].
  apply C. intros; split; reflexivity.
Qed.

Lemma sameTracking_rootUri_is (st st' : GitViewContribution) (u : string) (r : ProviderRef) :
  sameTracking st st' -> rootUri_is st' u r = rootUri_is st u r.
Proof.
  intros (_ & _ & _ & _ & _ & R). unfold rootUri_is, deref, get_rootUri.
  apply (f_equal (fun l => nth_error l r)) in R. rewrite !nth_error_map in R.
  destruct (nth_error (store st') r), (nth_error (store st) r); simpl in R;
    try discriminate; [|reflexivity].
  injection R as ->. reflexivity.
Qed.

Lemma sameTracking_untracked (st st' : GitViewContribution) (u : string) :
  sameTracking st st' -> untracked st u -> untracked st' u.
Proof.
  intros T U r I. rewrite (sameTracking_rootUri_is st st' u r T).
  apply U. destruct T as (P & _). now rewrite <- P.
Qed.

Lemma nonEmptyBuckets_nonempty (b : Buckets) :
  Forall (fun bucket => snd bucket <> []) (nonEmptyBuckets b).
Proof.
  destruct b as [[s u] m]. unfold nonEmptyBuckets. apply Forall_forall.
  intros x I. apply filter_In in I. destruct I as [_ E].
  destruct (snd x); [discriminate | discriminate].
Qed.

(** Groups that stand for non-empty buckets all get a container. *)
Lemma rendered_buckets (st : GitViewContribution) (provider : ProviderRef)
      (groups : list ScmResourceGroup) (buckets : list (string * list GitFileChange)) :
  Forall2 (groupOf provider) groups buckets ->
  Forall (fun bucket => snd bucket <> []) buckets ->
  Forall2 (fun container bucket =>
             exists k, container = Some k /\
                       container_label k = fst bucket /\
                       container_changeCount k = Some (List.length (snd bucket)) /\
                       List.length (container_items k) = List.length (snd bucket))
          (map (renderGroup URI_path st) groups) buckets.
Proof.
  induction 1 as [|g b gs bs (L & _ & P) F2 IH]; intros N; simpl; constructor.
  - inversion N as [|? ? Nb _]; subst.
    apply Permutation_length in P. rewrite length_map in P.
    unfold renderGroup. destruct (snd b) as [|c cs] eqn:E; [congruence|].
    simpl in P. rewrite P. cbn [Nat.ltb Nat.leb].
    eexists. split; [reflexivity|]. cbn. rewrite P, length_map, P. auto.
  - apply IH. now inversion N.
Qed.

(** X7.  When, after the run of the tracker, a provider is tracked for the
    repository of the event and the icons resolve, the handler stores in
    that provider one group per non-empty bucket, stores the staged and the
    merge bucket as the caches, leaves the other providers alone, and ends
    by firing on that provider the checkout command and then the
    resources-changed notification.  The widget then shows one container
    for each non-empty bucket, none being skipped, with the bucket's label,
    its number of changes as count and one item slot per change. *)
Theorem onGitEvent_publishes_groups (event : GitStatusChangeEvent)
        (entry : option StatusBarEntry) (st : GitViewContribution) (provider : ProviderRef) :
  find (rootUri_is (checkNewOrRemovedRepositories st) (localUri (source event)))
       (scmProviders (checkNewOrRemovedRepositories st)) = Some provider ->
  iconsResolve (filter (fun c => negb (isConflicted c && staged c))
                       (changes (event_status event))) = true ->
  exists p groups,
    deref (checkNewOrRemovedRepositories st) provider = Some p /\
    _rootUri p = Some (localUri (source event)) /\
    deref (onGitEvent event entry st) provider = Some (fst (set_groups groups p)) /\
    Forall2 (groupOf provider) groups
            (nonEmptyBuckets (classify (Some (event_status event)))) /\
    stagedChanges (onGitEvent event entry st) =
      fst (fst (classify (Some (event_status event)))) /\
    mergeChanges (onGitEvent event entry st) = snd (classify (Some (event_status event))) /\
    (forall r q, r <> provider ->
                 deref (checkNewOrRemovedRepositories st) r = Some q ->
                 deref (onGitEvent event entry st) r = Some q) /\
    (exists before,
      trace (onGitEvent event entry st) =
        (before ++ [Fire provider (DidChangeStatusBarCommands
                                     [checkoutCommand (event_status event)]);
                    Fire provider DidChangeResources])%list) /\
    Forall2 (fun container bucket =>
               exists k, container = Some k /\
                         container_label k = fst bucket /\
                         container_changeCount k = Some (List.length (snd bucket)) /\
                         List.length (container_items k) = List.length (snd bucket))
            (renderGroups URI_path (onGitEvent event entry st) provider)
            (nonEmptyBuckets (classify (Some (event_status event)))).
Proof.
  intros F R. unfold renderGroups. unfold onGitEvent. rewrite F.
  set (st1 := checkNewOrRemovedRepositories st) in *.
  set (st2 := updateSyncStatusBarEntry entry (Some (localUri (source event))) st1).
  apply find_some in F. destruct F as [_ F]. apply rootUri_is_spec in F.
  destruct F as (p & D1 & Rp).
  destruct (updateSyncStatusBarEntry_fields entry (Some (localUri (source event))) st1)
    as (S2 & _).
  fold st2 in S2.
  destruct (getGroups_fulfilled_state (Some (event_status event)) provider st2 R)
    as (groups & n & -> & G).
  set (st3 := with_changes _ _ _).
  assert (S3 : store st3 = store st1) by exact S2.
  assert (D3 : deref st3 provider = Some p) by (unfold deref; rewrite S3; exact D1).
  destruct (publishGroups_fields provider (event_status event) groups st3 p D3)
    as (S4 & T4 & _ & A4 & M4 & _).
  exists p, groups. split; [exact D1|]. split; [exact Rp|].
  split. { unfold deref. rewrite S4. eapply store_update_lookup. exact D3. }
  split; [exact G|]. split; [rewrite A4; reflexivity|]. split; [rewrite M4; reflexivity|].
  assert (D4 : deref (publishGroups provider (event_status event) groups st3) provider
               = Some (fst (set_groups groups p)))
    by (unfold deref; rewrite S4; eapply store_update_lookup; exact D3).
  split.
  { intros r q N D. unfold deref in *. rewrite S4, store_update_other, S3 by congruence.
    exact D. }
  split; [eexists; exact T4|].
  rewrite D4. cbn [set_groups fst get_groups _groups].
  apply (rendered_buckets _ provider); [exact G | apply nonEmptyBuckets_nonempty].
Qed.

(** An event of a repository without tracked provider. *)
Lemma untracked_source_fields (event : GitStatusChangeEvent)
        (entry : option StatusBarEntry) (st : GitViewContribution) :
  untracked (checkNewOrRemovedRepositories st) (localUri (source event)) ->
  store (onGitEvent event entry st) = store (checkNewOrRemovedRepositories st) /\
  SCM_GROUP_ID (onGitEvent event entry st) = SCM_GROUP_ID st /\
  stagedChanges (onGitEvent event entry st) = stagedChanges st /\
  mergeChanges (onGitEvent event entry st) = mergeChanges st /\
  trace (onGitEvent event entry st) =
    (trace (checkNewOrRemovedRepositories st) ++
     match entry with
     | Some _ => if truthy_string (Some (localUri (source event))) then []
                 else [StatusBarRemoveElement GIT_SYNC_STATUS]
     | None => [StatusBarRemoveElement GIT_SYNC_STATUS]
     end)%list.
Proof.
  intros U. unfold onGitEvent.
  destruct (tracker_shape st) as (_ & _ & _ & _ & _ & _ & G & A & M & _).
  set (st1 := checkNewOrRemovedRepositories st) in *.
  rewrite (find_none_of _ _ U).
  unfold updateSyncStatusBarEntry. rewrite (find_none_of _ _ U).
  destruct entry as [e|]; [destruct (truthy_string _)|]; cbn;
    rewrite ?app_nil_r; repeat split; assumption.
Qed.

(** X8.  When, after the run of the tracker, no tracked provider has the URI
    of the event's repository, the handler builds no group and publishes
    nothing: the provider objects, the group counter and the two caches are
    as the tracker left them; the only thing it may still do is remove the
    sync element of the status bar, when there is no entry for it or the URI
    is empty. *)
Theorem onGitEvent_untracked_source (event : GitStatusChangeEvent)
        (entry : option StatusBarEntry) (st : GitViewContribution) :
  untracked (checkNewOrRemovedRepositories st) (localUri (source event)) ->
  store (onGitEvent event entry st) = store (checkNewOrRemovedRepositories st) /\
  SCM_GROUP_ID (onGitEvent event entry st) = SCM_GROUP_ID st /\
  stagedChanges (onGitEvent event entry st) = stagedChanges st /\
  mergeChanges (onGitEvent event entry st) = mergeChanges st /\
  trace (onGitEvent event entry st) =
    (trace (checkNewOrRemovedRepositories st) ++
     match entry with
     | Some _ => if truthy_string (Some (localUri (source event))) then []
                 else [StatusBarRemoveElement GIT_SYNC_STATUS]
     | None => [StatusBarRemoveElement GIT_SYNC_STATUS]
     end)%list.
Proof. apply untracked_source_fields. Qed.

Lemma wellFormed_tracker (st : GitViewContribution) :
  wellFormed st ->
  (ScmProviderImpl_ID st < MAX_EXACT)%N ->
  wellFormed (checkNewOrRemovedRepositories st).
Proof.
  intros (Dg & Nd & Ids & Ni) B.
  destruct (tracked_after st) as (created & disposed & S & A & _ & Sub & _ & N & _ & _).
  rewrite Forall_forall in Dg.
  assert (Fresh : forall x, In x (scmProviders st) ->
                            ~ In x (seq (List.length (store st)) (List.length created))).
  { intros x Ix I. apply in_seq in I. specialize (Dg x Ix). lia. }
  assert (Nt : NoDup (scmProviders st ++ seq (List.length (store st)) (List.length created)))
    by (apply NoDup_app; [exact Nd | apply seq_NoDup | exact Fresh]).
  split; [|split; [apply N; exact Nt|]].
  - apply Forall_forall. intros y Iy. apply Sub, in_app_or in Iy.
    rewrite S, length_app. destruct Iy as [I|I]; [specialize (Dg y I); lia|].
    apply in_seq in I. lia.
  - rewrite S, map_app. rewrite Forall_forall in Ids.
    destruct (find _ (allRepositories st)) as [a|]; destruct A as [-> E].
    + rewrite E, (Number_succ_exact _ B). split.
      * apply Forall_app. split.
        -- apply Forall_forall. intros p Ip. destruct (Ids p Ip) as (k & Ek & Lk).
           exists k. split; [exact Ek | lia].
        -- repeat constructor. exists (ScmProviderImpl_ID st). split; [reflexivity | lia].
      * apply NoDup_app; [exact Ni | repeat constructor; simpl; tauto |].
        intros x Ix [<-|[]]. apply in_map_iff in Ix. destruct Ix as (p & Ep & Ip).
        destruct (Ids p Ip) as (k & Ek & Lk). rewrite Ek in Ep. cbn in Ep.
        injection Ep as Ep. apply Number_toString_inj in Ep. lia.
    + rewrite E, !app_nil_r. split; [apply Forall_forall; exact Ids | exact Ni].
Qed.

Lemma wellFormed_sameTracking (st st' : GitViewContribution) :
  sameTracking st st' -> wellFormed st -> wellFormed st'.
Proof.
  intros (P & I & _ & _ & Mi & _) (Dg & Nd & Ids & Ni).
  assert (L : List.length (store st') = List.length (store st))
    by (rewrite <- (length_map _id (store st')), Mi; apply length_map).
  unfold wellFormed. rewrite P, I, L, Mi.
  split; [exact Dg|]. split; [exact Nd|]. split; [|exact Ni].
  apply (Forall_map _id (fun i => exists k, i = "scm" ++ Number_toString k /\
                                           (k < ScmProviderImpl_ID st)%N)).
  rewrite Mi. now apply Forall_map.
Qed.

(** X9.  Handling a git event keeps the tracking well formed: the tracked
    references stay distinct and within the store, and the provider objects
    keep distinct identifiers, numbered below the counter (as long as the
    counter is a number that [++] still increases). *)
Theorem onGitEvent_keeps_tracking_wellFormed (event : GitStatusChangeEvent)
        (entry : option StatusBarEntry) (st : GitViewContribution) :
  wellFormed st ->
  (ScmProviderImpl_ID st < MAX_EXACT)%N ->
  wellFormed (onGitEvent event entry st) /\
  dirtyRepositories (onGitEvent event entry st) = allRepositories st /\
  allRepositories (onGitEvent event entry st) = allRepositories st.
Proof.
  intros W B.
  pose proof (onGitEvent_sameTracking event entry st) as T.
  split; [eapply wellFormed_sameTracking; [exact T | now apply wellFormed_tracker]|].
  destruct T as (_ & _ & Dt & At & _).
  destruct (tracker_shape st) as (_ & _ & _ & _ & _ & _ & _ & _ & _ & A & D).
  split; congruence.
Qed.

Lemma find_first_is {A} (f : A -> bool) (before after : list A) (a : A) :
  f a = true -> (forall x, In x before -> f x = false) ->
  find f (before ++ a :: after) = Some a.
Proof.
  intros Fa Fb. unfold find. induction before as [|y before IH]; simpl.
  - now rewrite Fa.
  - rewrite (Fb y (or_introl eq_refl)). apply IH. intros x I. apply Fb. now right.
Qed.

Lemma onGitEvents_settled (u : string)
      (events : list (GitStatusChangeEvent * option StatusBarEntry)) :
  forall st,
    dirtyRepositories st = allRepositories st ->
    untracked st u ->
    dirtyRepositories (onGitEvents events st) = allRepositories (onGitEvents events st) /\
    allRepositories (onGitEvents events st) = allRepositories st /\
    untracked (onGitEvents events st) u.
Proof.
  induction events as [|[e entry] events IH]; intros st D U; [now repeat split|].
  unfold onGitEvents in *. cbn [fold_left fst snd].
  pose proof (onGitEvent_sameTracking e entry st) as T.
  rewrite (checkNewOrRemovedRepositories_settled st D) in T.
  pose proof T as (_ & _ & Dt & At & _).
  destruct (IH (onGitEvent e entry st)) as (X & Y & Z).
  - congruence.
  - eapply sameTracking_untracked; eauto.
  - split; [exact X | split; [rewrite Y; exact At | exact Z]].
Qed.

(** X10.  Two repositories that appear at once: the tracker registers a
    provider for the first unobserved repository only and records the whole
    list as observed.  A second new repository [b], with another URI,
    then has no tracked provider, and gets none however many git events
    follow while the list stays as it is; every event of [b] itself builds
    no group and changes no provider, counter or cache. *)
Theorem second_addition_is_never_tracked (st : GitViewContribution)
        (a b : Repository) (before after : list Repository)
        (events : list (GitStatusChangeEvent * option StatusBarEntry)) :
  allRepositories st = (before ++ a :: after)%list ->
  unobserved st a ->
  (forall x, In x before -> ~ unobserved st x) ->
  In b after ->
  unobserved st b ->
  localUri b <> localUri a ->
  untracked st (localUri b) ->
  In b (dirtyRepositories (checkNewOrRemovedRepositories st)) /\
  untracked (onGitEvents events (checkNewOrRemovedRepositories st)) (localUri b) /\
  (forall event entry,
      localUri (source event) = localUri b ->
      store (onGitEvent event entry (onGitEvents events (checkNewOrRemovedRepositories st)))
        = store (onGitEvents events (checkNewOrRemovedRepositories st)) /\
      SCM_GROUP_ID (onGitEvent event entry
                      (onGitEvents events (checkNewOrRemovedRepositories st)))
        = SCM_GROUP_ID (onGitEvents events (checkNewOrRemovedRepositories st)) /\
      stagedChanges (onGitEvent event entry
                       (onGitEvents events (checkNewOrRemovedRepositories st)))
        = stagedChanges (onGitEvents events (checkNewOrRemovedRepositories st)) /\
      mergeChanges (onGitEvent event entry
                      (onGitEvents events (checkNewOrRemovedRepositories st)))
        = mergeChanges (onGitEvents events (checkNewOrRemovedRepositories st))).
Proof.
  intros E Ua Ub Ib Ubb N U.
  destruct (tracked_after st) as (created & disposed & S & A & _ & Sub & _ & _ & _ & _).
  destruct (tracker_shape st) as (_ & _ & _ & _ & _ & _ & _ & _ & _ & Al & D).
  rewrite E, (find_first_is _ before after a) in A.
  2:{ now apply unobserved_every. }
  2:{ intros x Ix. destruct (every _ _) eqn:V; [|reflexivity].
      apply unobserved_every in V. now destruct (Ub x Ix). }
  destruct A as [-> _].
  assert (U1 : untracked (checkNewOrRemovedRepositories st) (localUri b)).
  { intros y Iy. destruct (rootUri_is _ _ y) eqn:R; [|reflexivity]. exfalso.
    apply rootUri_is_spec in R. destruct R as (p & Dp & Rp).
    unfold deref in Dp. rewrite S in Dp.
    apply Sub, in_app_or in Iy.
    destruct (Nat.lt_ge_cases y (List.length (store st))) as [Lt|Ge].
    - rewrite nth_error_app1 in Dp by exact Lt.
      destruct Iy as [I|I]; [|apply in_seq in I; lia].
      specialize (U y I). unfold rootUri_is, deref, get_rootUri in U.
      rewrite Dp, Rp, String.eqb_refl in U. discriminate.
    - rewrite nth_error_app2 in Dp by exact Ge.
      destruct (y - List.length (store st))%nat as [|[|k]]; simpl in Dp; try discriminate.
      injection Dp as <-. cbn in Rp. congruence. }
  assert (D1 : dirtyRepositories (checkNewOrRemovedRepositories st) =
               allRepositories (checkNewOrRemovedRepositories st)) by congruence.
  destruct (onGitEvents_settled (localUri b) events _ D1 U1) as (Dn & An & Un).
  split; [rewrite D, E; apply in_or_app; right; now right|].
  split; [exact Un|].
  intros event entry Eu.
  set (stn := onGitEvents events (checkNewOrRemovedRepositories st)) in *.
  pose proof (checkNewOrRemovedRepositories_settled stn Dn) as C.
  assert (Ue : untracked (checkNewOrRemovedRepositories stn) (localUri (source event)))
    by (rewrite C, Eu; exact Un).
  destruct (untracked_source_fields event entry stn Ue) as (X1 & X2 & X3 & X4 & _).
  rewrite C in X1. auto.
Qed.

(** What [registerScmProvider] does to the state. *)
Lemma registerScmProvider_fields (repository : Repository) (st : GitViewContribution) :
  exists p,
    store (snd (registerScmProvider repository st)) = (store st ++ [p])%list /\
    _rootUri p = Some (localUri repository) /\
    _groups p = None /\
    scmProviders (snd (registerScmProvider repository st)) =
      (scmProviders st ++ [List.length (store st)])%list /\
    allRepositories (snd (registerScmProvider repository st)) = allRepositories st /\
    trace (snd (registerScmProvider repository st)) =
      (trace st ++ [RegisterScmProvider (List.length (store st))])%list.
Proof.
  unfold registerScmProvider, ScmProviderImpl_new.
  destruct (ScmService_registerScmProvider _ _) as [repo service].
  eexists. cbn. repeat split; reflexivity.
Qed.

Lemma register_each (l : list Repository) :
  forall st,
    exists created,
      store (fold_left (fun s repository => snd (registerScmProvider repository s)) l st) =
        (store st ++ created)%list /\
      Forall2 (fun repo p => _rootUri p = Some (localUri repo) /\ _groups p = None) l created /\
      scmProviders (fold_left (fun s repository => snd (registerScmProvider repository s)) l st) =
        (scmProviders st ++ seq (List.length (store st)) (List.length l))%list /\
      allRepositories (fold_left (fun s repository => snd (registerScmProvider repository s)) l st)
        = allRepositories st /\
      trace (fold_left (fun s repository => snd (registerScmProvider repository s)) l st) =
        (trace st ++ map RegisterScmProvider (seq (List.length (store st)) (List.length l)))%list.
Proof.
  induction l as [|x l IH]; intros st.
  - exists []. cbn. rewrite !app_nil_r. repeat split. constructor.
  - cbn [fold_left].
    destruct (registerScmProvider_fields x st) as (p & S1 & R1 & G1 & P1 & A1 & T1).
    destruct (IH (snd (registerScmProvider x st))) as (created & S & F & P & A & T).
    exists (p :: created).
    rewrite S, P, A, T, S1, P1, A1, T1, length_app. cbn [List.length seq map].
    rewrite Nat.add_1_r, <- !app_assoc. cbn [app].
    repeat split. now constructor.
Qed.

(** X11.  [onStart] registers one provider for each repository of the list,
    in the order of the list, each with the repository's URI as root and no
    groups yet, tracks them all and records the list as observed; so every
    repository has a tracked provider, and a run of the tracker right after
    start changes nothing. *)
Theorem onStart_tracks_every_repository (st : GitViewContribution) :
  (exists created,
      store (onStart st) = (store st ++ created)%list /\
      Forall2 (fun repo p => _rootUri p = Some (localUri repo) /\ _groups p = None)
              (allRepositories st) created) /\
  scmProviders (onStart st) =
    (scmProviders st ++ seq (List.length (store st)) (List.length (allRepositories st)))%list /\
  trace (onStart st) =
    (trace st ++ map RegisterScmProvider
                     (seq (List.length (store st)) (List.length (allRepositories st))))%list /\
  dirtyRepositories (onStart st) = allRepositories st /\
  allRepositories (onStart st) = allRepositories st /\
  (forall repo, In repo (allRepositories st) ->
                exists r, In r (scmProviders (onStart st)) /\
                          rootUri_is (onStart st) (localUri repo) r = true) /\
  checkNewOrRemovedRepositories (onStart st) = onStart st.
Proof.
  unfold onStart.
  destruct (register_each (allRepositories st) st) as (created & S & F & P & A & T).
  set (st1 := fold_left _ _ _) in *. cbn [store scmProviders trace dirtyRepositories
                                            allRepositories with_dirtyRepositories].
  split; [exists created; now split|].
  split; [exact P|]. split; [exact T|]. split; [exact A|]. split; [exact A|].
  split.
  - intros repo I. apply In_nth_error in I. destruct I as [i Ei].
    assert (Li : (i < List.length (allRepositories st))%nat)
      by (apply nth_error_Some; congruence).
    assert (Lc : List.length created = List.length (allRepositories st))
      by (symmetry; eapply Forall2_length; eauto).
    destruct (nth_error created i) as [p|] eqn:Ep.
    2:{ apply nth_error_None in Ep. lia. }
    exists (List.length (store st) + i)%nat. split.
    + rewrite P. apply in_or_app. right. apply in_seq. lia.
    + apply rootUri_is_spec. exists p. split.
      * unfold deref. cbn [store with_dirtyRepositories]. rewrite S.
        rewrite nth_error_app2 by lia.
        now replace (List.length (store st) + i - List.length (store st))%nat with i by lia.
      * clear - F Ei Ep. revert i Ei Ep.
        induction F as [|x q l c [R _] F IH]; intros [|i] Ei Ep; simpl in *;
          try discriminate; [congruence | eauto].
  - apply checkNewOrRemovedRepositories_settled. cbn. congruence.
Qed.

Lemma getGroups_caches (wds : option WorkingDirectoryStatus) (provider : ProviderRef)
      (st st' : GitViewContribution) (groups : list ScmResourceGroup) :
  getGroups wds provider st = (Fulfilled groups, st') ->
  stagedChanges st' = fst (fst (classify wds)) /\ mergeChanges st' = snd (classify wds).
Proof.
  intros E.
  destruct (iconsResolve (filter (fun c => negb (isConflicted c && staged c))
                                 (changesOf wds))) eqn:R.
  - destruct (getGroups_fulfilled_state wds provider st R) as (gs & n & E' & _).
    rewrite E in E'. injection E' as _ ->. now split.
  - destruct (getGroups_rejected wds provider st R) as (e & st0 & E' & _).
    rewrite E in E'. discriminate.
Qed.

(** X12.  After a refresh, opening a resource of the merge group (a
    conflicted, unstaged change) asks the editor for the plain working-tree
    file, so that the conflict can be edited; only when the same path is
    also in the staged group it asks for the comparison of the index with
    the working tree. *)
Theorem conflicted_resource_opens_working_file
        (wds : option WorkingDirectoryStatus) (provider : ProviderRef)
        (st st' : GitViewContribution) (groups : list ScmResourceGroup)
        (r : ScmResource) :
  getGroups wds provider st = (Fulfilled groups, st') ->
  In (open_change r) (changesOf wds) ->
  isConflicted (open_change r) = true ->
  staged (open_change r) = false ->
  trace (ScmResource_open r st') =
    (trace st' ++
     [EditorOpen
        (if inSet (fst (fst (classify wds))) (uri (open_change r))
         then DiffUris_encode
                (withScheme (URI_new (uri (open_change r))) GIT_RESOURCE_SCHEME)
                (URI_new (uri (open_change r)))
                (displayName (URI_new (uri (open_change r))) ++ " (Working tree)")
         else URI_new (uri (open_change r)))])%list.
Proof.
  intros E I C S. destruct (getGroups_caches wds provider st st' groups E) as [Es Em].
  unfold ScmResource_open. cbn [trace emit]. do 2 f_equal.
  unfold getUriToOpen. rewrite !findByUri_inSet, Es, Em, S.
  assert (N : GitFileStatus_eqb (status (open_change r)) New = false).
  { unfold isConflicted in C. destruct (status (open_change r)); try discriminate. reflexivity. }
  rewrite N. cbn [negb].
  assert (M : inSet (snd (classify wds)) (uri (open_change r)) = true).
  { rewrite classify_filters. cbn [snd]. unfold inSet. apply existsb_exists.
    exists (open_change r). split; [|apply String.eqb_refl].
    apply filter_In. split; [exact I|]. now rewrite C, S. }
  rewrite M. destruct (inSet _ _); reflexivity.
Qed.

End EventProperties.

(** ** Runs on the concrete model *)

Module Runs.
Import Sample.
#[local] Existing Instance symbolicUri.
#[local] Existing Instance listScmService.
#[local] Existing Instance collaborators.
#[local] Existing Instance codePointCollation.

(** The end-to-end example of the specification (section 8, item 5). *)
Example spec_example_groups :
  match fst (getGroups (Some (statusOf [a_txt; b_txt])) 0 started) with
  | Fulfilled groups =>
      map (fun g => (label g, id g, map open_change (resources g))) groups =
      [("Staged changes", "Staged changes_0", [a_txt]); ("Changes", "Changes_1", [b_txt])]
  | Rejected _ => False
  end.
Proof. reflexivity. Qed.

Example spec_example_uris :
  getUriToOpen started a_txt =
    Diff (Query (Scheme (Parsed "file:///r/a.txt") "gitrev") "HEAD")
         (Scheme (Parsed "file:///r/a.txt") "gitrev") "a.txt (Index)" /\
  getUriToOpen started b_txt = Parsed "file:///r/b.txt".
Proof. split; reflexivity. Qed.

(** A modified file that is also in the cached staged set is compared with
    the index. *)
Example staged_overlap_uri :
  getUriToOpen (with_changes [a_txt] [] started)
               {| uri := "file:///r/a.txt"; status := Modified; staged := false |} =
  Diff (Scheme (Parsed "file:///r/a.txt") "gitrev") (Parsed "file:///r/a.txt")
       "a.txt (Working tree)".
Proof. reflexivity. Qed.

Example sorted_by_last_segment :
  match fst (getGroup "Changes" 0 [z_txt; b_txt; broken_txt] started) with
  | Fulfilled g => True
  | Rejected e => e = ErrorObject "no icon"
  end /\
  match fst (getGroup "Changes" 0 [b_txt; z_txt; c_txt] started) with
  | Fulfilled g => map lastSegment (resources g) = ["/Z.txt"; "/b.txt"; "/c.txt"]
  | Rejected _ => False
  end.
Proof. split; reflexivity. Qed.

Example event_trace :
  trace (onGitEvent (eventOf [a_txt; b_txt]) None started) =
  [RegisterScmProvider 0;
   StatusBarRemoveElement "git-sync-status";
   Fire 0 (DidChangeStatusBarCommands
             [{| cmd_id := "git.checkout"; cmd_text := "$(code-fork) master*";
                 cmd_tooltip := None; cmd_command := Some "git.checkout" |}]);
   Fire 0 DidChangeResources].
Proof. reflexivity. Qed.

Example amend_other_error_rethrown :
  fst (COMMIT_AMEND_execute (Some (fun _ _ _ => None)) (Some repo)
                            (Rejected (NonError (Some "User abort."))) started) =
  Rejected (NonError (Some "User abort.")).
Proof. reflexivity. Qed.

Lemma classifier_partitions_witness :
  ~ In d_txt (fst (fst (classify (Some (statusOf [a_txt; b_txt; c_txt; d_txt]))))) /\
  ~ In d_txt (snd (fst (classify (Some (statusOf [a_txt; b_txt; c_txt; d_txt]))))) /\
  ~ In d_txt (snd (classify (Some (statusOf [a_txt; b_txt; c_txt; d_txt])))).
Proof.
  pose proof (classifier_partitions (Some (statusOf [a_txt; b_txt; c_txt; d_txt]))) as H.
  cbn in H. destruct H as [(_ & _ & _ & _ & H & _) _].
  exact (H d_txt eq_refl eq_refl).
Defined.

Lemma getGroups_one_group_per_bucket_witness :
  exists groups st',
    getGroups (Some (statusOf [a_txt; b_txt; c_txt; d_txt])) 0 started = (Fulfilled groups, st') /\
    Forall2 (groupOf 0) groups
            (nonEmptyBuckets (classify (Some (statusOf [a_txt; b_txt; c_txt; d_txt])))).
Proof.
  apply getGroups_one_group_per_bucket. reflexivity.
Defined.

Lemma getGroup_resources_sorted_witness :
  exists g st' inBucketOrder,
    getGroup "Changes" 0 [z_txt; b_txt; c_txt] started = (Fulfilled g, st') /\
    Forall2 builtFrom [z_txt; b_txt; c_txt] inBucketOrder /\
    Permutation (resources g) inBucketOrder /\
    StronglySorted
      (fun a b => (localeCompare (lastSegment a) (lastSegment b) <= 0)%Z) (resources g) /\
    (forall k,
      filter (fun r => (localeCompare (lastSegment k) (lastSegment r) =? 0)%Z) (resources g) =
      filter (fun r => (localeCompare (lastSegment k) (lastSegment r) =? 0)%Z) inBucketOrder) /\
    (forall r p q,
        URI_toString (sourceUri r) = p ++ "/" ++ q ->
        ~ In "/"%char (list_ascii_of_string q) ->
        lastSegment r = "/" ++ q).
Proof.
  apply getGroup_resources_sorted. reflexivity.
Defined.

Lemma group_ids_never_repeat_witness :
  NoDup (map id (fst (getGroup_sequence
                        [("Changes", 0, [b_txt]); ("Changes", 0, [broken_txt]);
                         ("Changes", 0, [b_txt])] started))) /\
  SCM_GROUP_ID (snd (getGroup_sequence
                       [("Changes", 0, [b_txt]); ("Changes", 0, [broken_txt]);
                        ("Changes", 0, [b_txt])] started)) = 2%N.
Proof.
  assert (B : (SCM_GROUP_ID started + N.of_nat 3 <= MAX_EXACT)%N)
    by (vm_compute; discriminate).
  exact (group_ids_never_repeat
           [("Changes", 0, [b_txt]); ("Changes", 0, [broken_txt]); ("Changes", 0, [b_txt])]
           started B).
Defined.

Lemma rejected_icon_publishes_nothing_witness :
  (forall provider st0,
      exists e st1,
        getGroups (Some (statusOf [a_txt; broken_txt])) provider st0 = (Rejected e, st1) /\
        stagedChanges st1 = stagedChanges st0 /\
        mergeChanges st1 = mergeChanges st0) /\
  (forall r p,
      deref started r = Some p ->
      deref (onGitEvent (eventOf [a_txt; broken_txt]) (Some syncEntry) started) r = Some p) /\
  (exists fired,
      trace (onGitEvent (eventOf [a_txt; broken_txt]) (Some syncEntry) started) =
        (trace started ++ fired)%list /\
      forall r, ~ In (Fire r DidChangeResources) fired) /\
  stagedChanges (onGitEvent (eventOf [a_txt; broken_txt]) (Some syncEntry) started) =
    stagedChanges started /\
  mergeChanges (onGitEvent (eventOf [a_txt; broken_txt]) (Some syncEntry) started) =
    mergeChanges started.
Proof.
  apply (rejected_icon_publishes_nothing
           (eventOf [a_txt; broken_txt]) _ started broken_txt (ErrorObject "no icon")).
  - right. left. reflexivity.
  - reflexivity.
  - reflexivity.
Defined.

Lemma provider_hub_transitions_witness :
  deref (publishGroups 0 (statusOf [a_txt]) [] started) 0 =
    Some (fst (set_groups [] provider0)) /\
  trace (publishGroups 0 (statusOf [a_txt]) [] started) =
    (trace started ++ [Fire 0 (DidChangeStatusBarCommands [checkoutCommand (statusOf [a_txt])]);
                       Fire 0 DidChangeResources])%list.
Proof.
  apply (proj2 (proj2 (proj2 (proj2 (provider_hub_transitions provider0 [] [syncCommand]))))).
  reflexivity.
Defined.

(** C7, as stated, fails.  On the provider of [started]: assigning [groups]
    fires no resources-changed notification, and after
    [fireChangeStatusBarCommands] with a command list the provider's
    [statusBarCommands] is still undefined, not that list. *)
Lemma provider_hub_counterexample :
  ~ In DidChangeResources (snd (set_groups [] provider0)) /\
  get_statusBarCommands (fst (fireChangeStatusBarCommands [syncCommand] provider0))
    <> Some [syncCommand].
Proof.
  split; [intros [] | discriminate].
Qed.

Lemma dirtyMarker_cases_witness :
  dirtyMarker (changes (statusOf [a_txt])) = "+" /\
  dirtyMarker (changes (statusOf [a_txt; b_txt])) = "*" /\
  dirtyMarker (changes (statusOf [a_txt; c_txt])) = "!".
Proof.
  split; [|split].
  - apply (proj1 (proj2 (proj2 (proj2 (dirtyMarker_cases (statusOf [a_txt])))))).
    + discriminate.
    + repeat constructor. discriminate.
    + repeat constructor.
  - apply (proj2 (proj2 (proj2 (proj2 (dirtyMarker_cases (statusOf [a_txt; b_txt])))))).
    + discriminate.
    + repeat constructor; discriminate.
    + intros F. inversion F as [|? ? _ F']. inversion F' as [|? ? E _]. discriminate E.
  - apply (proj1 (proj2 (proj2 (dirtyMarker_cases (statusOf [a_txt; c_txt]))))).
    right. left. reflexivity.
Defined.

End Runs.

(** ** More runs on the concrete model *)

Module MoreRuns.
Import Sample.
#[local] Existing Instance symbolicUri.
#[local] Existing Instance listScmService.
#[local] Existing Instance collaborators.
#[local] Existing Instance codePointCollation.
#[local] Existing Instance backend.

Example commit_with_empty_message :
  doCommit repo "" (Some OptionAmend) =
  (Fulfilled tt, [GitCommit repo "" false true; HandleError (ErrorObject "empty message")]).
Proof. reflexivity. Qed.

Example user_config_is_trimmed :
  getUserConfig repo = Fulfilled ("Jane Doe", "jane@example.org").
Proof. reflexivity. Qed.

(** A folder that holds the name of the project hides the path. *)
Example project_name_inside_path :
  option_map item_path
    (renderScmResourceItem symbolic_path "Changes_0"
       {| sourceUri := Parsed "file:///home/u/r/src/a.txt";
          decorations := decorations lib_a; open_change := open_change lib_a |}
       (Some "file:///home/u/r")) = Some "".
Proof. reflexivity. Qed.

Example second_repository_is_lost :
  scmProviders (checkNewOrRemovedRepositories twoNew) = [0%nat] /\
  dirtyRepositories (checkNewOrRemovedRepositories twoNew) = [repo; repo2] /\
  map _rootUri (store (checkNewOrRemovedRepositories twoNew)) = [Some "file:///r"].
Proof. repeat split. Qed.

Lemma doSignOff_round_trip_witness :
  doSignOff (Some repo) (Some "Fix the parser") =
    Fulfilled (Some ("Fix the parser" ++ signOffTrailer "Jane Doe" "jane@example.org")) /\
  doSignOff (Some repo)
            (Some ("Fix the parser" ++ signOffTrailer "Jane Doe" "jane@example.org")) =
    Fulfilled (Some "Fix the parser").
Proof.
  assert (E : getUserConfig repo = Fulfilled ("Jane Doe", "jane@example.org"))
    by reflexivity.
  apply (proj1 (doSignOff_round_trip repo "Fix the parser" "Jane Doe" "jane@example.org" E)).
  reflexivity.
Defined.


Lemma onGitEvent_publishes_groups_witness :
  exists p groups,
    deref (checkNewOrRemovedRepositories started) 0 = Some p /\
    _rootUri p = Some "file:///r" /\
    deref (onGitEvent (eventOf [a_txt; b_txt; c_txt]) None started) 0 =
      Some (fst (set_groups groups p)) /\
    List.length groups = 3%nat.
Proof.
  assert (T : find (rootUri_is (checkNewOrRemovedRepositories started)
                               (localUri (source (eventOf [a_txt; b_txt; c_txt]))))
                    (scmProviders (checkNewOrRemovedRepositories started)) = Some 0%nat)
    by (vm_compute; reflexivity).
  assert (I : iconsResolve
                (filter (fun c => negb (isConflicted c && staged c))
                        (changes (event_status (eventOf [a_txt; b_txt; c_txt])))) = true)
    by (vm_compute; reflexivity).
  destruct (onGitEvent_publishes_groups (UA := symbolicUri) symbolic_path
              (eventOf [a_txt; b_txt; c_txt]) None started 0 T I)
    as (p & groups & D & R & D' & F & _).
  exists p, groups. repeat split; trivial.
  apply Forall2_length in F. exact F.
Defined.

Lemma onGitEvent_untracked_source_witness :
  store (onGitEvent {| source := repo2; event_status := statusOf [a_txt] |} None started) =
    store started /\
  SCM_GROUP_ID (onGitEvent {| source := repo2; event_status := statusOf [a_txt] |} None started)
    = 0%N.
Proof.
  assert (U : untracked (checkNewOrRemovedRepositories started)
                        (localUri (source {| source := repo2;
                                             event_status := statusOf [a_txt] |}))).
  { intros r [<-|[]]. reflexivity. }
  destruct (onGitEvent_untracked_source
              {| source := repo2; event_status := statusOf [a_txt] |} None started U)
    as (S & G & _).
  split; [exact S | exact G].
Defined.

Lemma onGitEvent_keeps_tracking_wellFormed_witness :
  wellFormed (onGitEvent (eventOf [a_txt; b_txt]) (Some syncEntry) started).
Proof.
  assert (W : wellFormed started).
  { repeat split.
    - repeat constructor.
    - repeat constructor. simpl. tauto.
    - repeat constructor. exists 0%N. split; reflexivity.
    - repeat constructor. simpl. tauto. }
  assert (B : (ScmProviderImpl_ID started < MAX_EXACT)%N) by reflexivity.
  exact (proj1 (onGitEvent_keeps_tracking_wellFormed
                  (eventOf [a_txt; b_txt]) (Some syncEntry) started W B)).
Defined.

Lemma second_addition_is_never_tracked_witness :
  In repo2 (dirtyRepositories (checkNewOrRemovedRepositories twoNew)) /\
  untracked (onGitEvents [({| source := repo2; event_status := statusOf [a_txt] |}, None);
                          (eventOf [b_txt], Some syncEntry)]
                         (checkNewOrRemovedRepositories twoNew))
            (localUri repo2).
Proof.
  assert (U : forall x : Repository, unobserved twoNew x) by (intros x d []).
  assert (T : untracked twoNew (localUri repo2)) by (intros r []).
  assert (N : localUri repo2 <> localUri repo) by discriminate.
  destruct (second_addition_is_never_tracked
              twoNew repo repo2 [] [repo2]
              [({| source := repo2; event_status := statusOf [a_txt] |}, None);
               (eventOf [b_txt], Some syncEntry)]
              eq_refl (U repo) (fun x (I : In x []) => match I with end)
              (or_introl eq_refl) (U repo2) N T) as (A & B & _).
  split; [exact A | exact B].
Defined.

Lemma conflicted_resource_opens_working_file_witness :
  trace (ScmResource_open conflict_c
           (snd (getGroups (Some (statusOf [a_txt; c_txt])) 0 started))) =
  (trace (snd (getGroups (Some (statusOf [a_txt; c_txt])) 0 started)) ++
   [EditorOpen (Parsed "file:///r/c.txt")])%list.
Proof.
  assert (G : getGroups (Some (statusOf [a_txt; c_txt])) 0 started =
              (Fulfilled (match fst (getGroups (Some (statusOf [a_txt; c_txt])) 0 started) with
                          | Fulfilled groups => groups
                          | Rejected _ => []
                          end),
               snd (getGroups (Some (statusOf [a_txt; c_txt])) 0 started)))
    by (vm_compute; reflexivity).
  assert (I : In (open_change conflict_c) (changesOf (Some (statusOf [a_txt; c_txt]))))
    by (right; left; reflexivity).
  assert (C : isConflicted (open_change conflict_c) = true) by reflexivity.
  assert (U : staged (open_change conflict_c) = false) by reflexivity.
  exact (conflicted_resource_opens_working_file _ _ _ _ _ conflict_c G I C U).
Defined.

End MoreRuns.

